(** * Jobly: the dynamic SQL construction of the data-access layer

    A shallow embedding of [helpers/sql.js], [models/company.js] and
    [models/jobs.js].  The pure string building is embedded as functions
    on strings and lists; the asynchronous repository operations are
    embedded in a small state-and-exception monad over the store executor
    [db.query], which is a parameter of the development.  The handlers of
    [routes/users.js] are embedded over the operations of the user model,
    which are parameters as well. *)

From Stdlib Require Import Ascii String ZArith.
From stdpp Require Import base strings list sorting gmap pretty.

Open Scope string_scope.
Open Scope list_scope.

#[local] Arguments String.append !_ _ / : simpl nomatch.

(** ** JavaScript values *)

(** The scalars that travel through this layer.  Numbers are the integers
    (the data model's numeric fields are integers; fractions and [NaN] are
    not represented); objects appear only as the argument records and
    result rows below. *)
Inductive JsVal : Type :=
  | VUndefined
  | VNull
  | VBool (b : bool)
  | VNum (n : Z)
  | VStr (s : string).

#[global] Instance JsVal_eq_dec : EqDecision JsVal.
Proof. solve_decision. Defined.

(** ToBoolean: [undefined], [null], [false], [0] and the empty string are
    falsy, every other scalar is truthy. *)
Definition truthy (v : JsVal) : bool :=
  match v with
  | VUndefined | VNull => false
  | VBool b => b
  | VNum n => negb (n =? 0)%Z
  | VStr s => negb (bool_decide (s = ""))
  end.

(** The Number value of a non-negative integer: the nearest double, ties
    to even ([None] is [Infinity]).  Up to 2^53 it is the integer itself. *)
Definition to_double (n : Z) : option Z :=
  if (n <? 2 ^ 53)%Z then Some n
  else
    let shift := (Z.log2 n - 52)%Z in
    let q := Z.shiftr n shift in
    let r := (n - Z.shiftl q shift)%Z in
    let half := Z.shiftl 1 (shift - 1) in
    let q := if (half <? r)%Z || ((r =? half)%Z && Z.odd q) then (q + 1)%Z else q in
    let x := Z.shiftl q shift in
    if (2 ^ 1024 <=? x)%Z then None else Some x.

(** The integer with the fewest significant digits whose Number value is
    [x], the closest to [x] among those: tried with [k] significant digits,
    then with more. *)
Fixpoint shortest_from (fuel : nat) (x digits k : Z) : Z :=
  match fuel with
  | O => x
  | S fuel =>
      let p := (10 ^ (digits - k))%Z in
      let lo := (x / p * p)%Z in
      let hi := (lo + p)%Z in
      match bool_decide (to_double lo = Some x), bool_decide (to_double hi = Some x) with
      | true, true => if (x - lo <=? hi - x)%Z then lo else hi
      | true, false => lo
      | false, true => hi
      | false, false => shortest_from fuel x digits (k + 1)%Z
      end
  end.

Definition shortest (x : Z) : Z :=
  shortest_from 17 x (Z.of_nat (String.length (pretty x))) 1.

Fixpoint strip_zeros (rev_digits : list ascii) : list ascii :=
  match rev_digits with
  | c :: rest => if bool_decide (c = ascii_of_nat 48) then strip_zeros rest else rev_digits
  | [] => []
  end.

(** A decimal numeral without its trailing zeros. *)
Definition significant (decimal : string) : string :=
  string_of_list_ascii (rev (strip_zeros (rev (list_ascii_of_string decimal)))).

(** Number::toString on the Number value of an integer: the shortest
    digits that denote it, written out in full up to 21 digits and in
    exponent notation beyond ([1e+21]). *)
Definition Number_toString (n : Z) : string :=
  let sign := if (n <? 0)%Z then "-" else "" in
  match to_double (Z.abs n) with
  | None => sign +:+ "Infinity"
  | Some x =>
      let decimal := pretty (shortest x) in
      if (String.length decimal <=? 21)%nat then sign +:+ decimal
      else
        match significant decimal with
        | String first rest =>
            sign +:+ String first (if bool_decide (rest = "") then "" else "." +:+ rest)
                 +:+ "e+" +:+ pretty (String.length decimal - 1)%nat
        | EmptyString => sign +:+ decimal
        end
  end.

(** ToString, as applied by a template literal [`${v}`]. *)
Definition ToString (v : JsVal) : string :=
  match v with
  | VUndefined => "undefined"
  | VNull => "null"
  | VBool true => "true"
  | VBool false => "false"
  | VNum n => Number_toString n
  | VStr s => s
  end.

(** [a === b] on scalars. *)
Definition strict_eq (a b : JsVal) : bool := bool_decide (a = b).

(** [a > b] where each operand is [undefined] ([None]) or an integer:
    ToNumber(undefined) is NaN, and a comparison with NaN is false. *)
Definition js_gt (a b : option Z) : bool :=
  match a, b with
  | Some x, Some y => bool_decide (x > y)%Z
  | _, _ => false
  end.

(** [v !== undefined] for such an operand, and the value it denotes. *)
Definition defined (a : option Z) : bool :=
  match a with Some _ => true | None => false end.

Definition num_or_undefined (a : option Z) : JsVal :=
  match a with Some n => VNum n | None => VUndefined end.

(** ** Plain objects *)

(** A plain object (an object literal, a parsed JSON body): its own
    properties, under distinct keys, in the order of their insertion. *)
Abbreviation JsObject := (list (string * JsVal)).

(** The array index a key denotes: a canonical decimal numeral below
    2^32 - 1. *)
Definition digit (c : ascii) : option N :=
  let n := N_of_ascii c in
  if (48 <=? n)%N && (n <=? 57)%N then Some (n - 48)%N else None.

Fixpoint parse_digits (acc : N) (s : string) : option N :=
  match s with
  | EmptyString => Some acc
  | String c s' =>
      match digit c with
      | Some d => parse_digits (acc * 10 + d)%N s'
      | None => None
      end
  end.

Definition array_index (key : string) : option N :=
  match key with
  | EmptyString => None
  | _ =>
      match parse_digits 0 key with
      | Some n =>
          if bool_decide (pretty n = key) && (n <? 2 ^ 32 - 1)%N then Some n else None
      | None => None
      end
  end.

Fixpoint insert_by {A} (rank : A → N) (x : A) (sorted : list A) : list A :=
  match sorted with
  | [] => [x]
  | y :: rest =>
      if (rank x <? rank y)%N then x :: sorted else y :: insert_by rank x rest
  end.

Definition sort_by {A} (rank : A → N) (l : list A) : list A :=
  foldr (insert_by rank) [] l.

(** The own properties in the order in which [Object.keys],
    [Object.values] and [Object.entries] enumerate them: the keys that are
    array indices first, in ascending order, then the other keys in the
    order of their insertion. *)
Definition enumerate {A} (key : A → string) (l : list A) : list A :=
  sort_by (λ x, default 0%N (array_index (key x)))
          (filter (λ x, is_Some (array_index (key x))) l)
  ++ filter (λ x, ¬ is_Some (array_index (key x))) l.

Definition Object_entries (o : JsObject) : JsObject := enumerate fst o.
Definition Object_keys (o : JsObject) : list string := (Object_entries o).*1.
Definition Object_values (o : JsObject) : list JsVal := (Object_entries o).*2.

(** What reading a property of an object literal gives: a scalar, or an
    object or function, of which this layer takes only the truth value
    (always true) and the string. *)
Inductive Member : Type :=
  | Scalar (v : JsVal)
  | Inherited (printed : string).

Definition Member_truthy (m : Member) : bool :=
  match m with
  | Scalar v => truthy v
  | Inherited _ => true
  end.

Definition Member_ToString (m : Member) : string :=
  match m with
  | Scalar v => ToString v
  | Inherited printed => printed
  end.

(** [a || b] *)
Definition js_or (a b : Member) : Member := if Member_truthy a then a else b.

(** The members that every object literal inherits from
    [Object.prototype], by the string a template literal gives for them:
    the functions print as native code, [__proto__] is the prototype
    object itself. *)
Definition Object_prototype (key : string) : option string :=
  if bool_decide (key = "constructor") then Some "function Object() { [native code] }"
  else if bool_decide (key = "__proto__") then Some "[object Object]"
  else if bool_decide (key ∈ ["toString"; "toLocaleString"; "valueOf"; "hasOwnProperty";
                              "isPrototypeOf"; "propertyIsEnumerable";
                              "__defineGetter__"; "__defineSetter__";
                              "__lookupGetter__"; "__lookupSetter__"])
       then Some ("function " +:+ key +:+ "() { [native code] }")
  else None.

(** [jsToSql[colName]] on a table of column names written as an object
    literal: the table's own entry, else the member inherited from
    [Object.prototype], else [undefined]. *)
Definition prop (jsToSql : gmap string string) (colName : string) : Member :=
  match jsToSql !! colName with
  | Some c => Scalar (VStr c)
  | None =>
      match Object_prototype colName with
      | Some printed => Inherited printed
      | None => Scalar VUndefined
      end
  end.

(** The double-quote and newline characters of the SQL templates. *)
Definition dq : string := String (ascii_of_nat 34) EmptyString.
Definition nl : string := String (ascii_of_nat 10) EmptyString.

(** [Array.prototype.join] on an array of strings. *)
Definition join (sep : string) (l : list string) : string := String.concat sep l.

(** ** Failures *)

(** A rejection of the store executor, identified by its error code. *)
Inductive DbError : Type := PgError (code : string).

(** Modelled from the spec: the error classes of [expressError.js], which
    is not among the sources.  The models build them as
    [new BadRequestError(message)] and [new NotFoundError(message)]; the
    error taxonomy names [BadRequestError] after its three uses
    (no update data, bad range, duplicate).  A rejection of the store
    executor is thrown on as it is. *)
Inductive Thrown : Type :=
  | BadRequestError (message : string)
  | NotFoundError (message : string)
  | StoreFailure (e : DbError).

Inductive Outcome (A : Type) : Type :=
  | Return (a : A)
  | Throw (e : Thrown).
Arguments Return {A} a.
Arguments Throw {A} e.

Definition outcome_map {A B : Type} (f : A → B) (o : Outcome A) : Outcome B :=
  match o with
  | Return a => Return (f a)
  | Throw e => Throw e
  end.

(** The three uses of [BadRequestError] under the taxonomy's names. *)
Definition NoUpdateDataError : Thrown := BadRequestError "No data".
Definition BadRangeError : Thrown :=
  BadRequestError "minimum input can not be higher than maximum input".
Definition is_DuplicateError (e : Thrown) : Prop :=
  ∃ what, e = BadRequestError ("Duplicate " +:+ what).

(** ** helpers/sql.js *)

Record SetClause : Type := { setCols : string; values : list JsVal }.

Definition sqlForPartialUpdate
    (dataToUpdate : JsObject) (jsToSql : gmap string string) : Outcome SetClause :=
  let keys := Object_keys dataToUpdate in
  if bool_decide (length keys = 0) then Throw (BadRequestError "No data")
  else
    let cols :=
      imap (λ idx colName,
              dq +:+ Member_ToString (js_or (prop jsToSql colName) (Scalar (VStr colName)))
                 +:+ dq +:+ "=$" +:+ pretty (idx + 1))
           keys in
    Return {| setCols := join ", " cols; values := Object_values dataToUpdate |}.

(** ** The store executor and the monad of the repository operations *)

(** A statement as handed to [db.query(text, params)]. *)
Record Query : Type := { text : string; params : list JsVal }.

(** A result row, and the [rows] of a result. *)
Abbreviation Row := JsObject.

(** [db.query] of [db.js] is the external collaborator: it answers a
    statement with rows or rejects, and may change the store. *)
Definition Executor (Store : Type) : Type :=
  Query → Store → (DbError + list Row) * Store.

(** The store together with the statements submitted so far. *)
Record World (Store : Type) : Type := { store : Store; sent : list Query }.
Arguments store {Store} w.
Arguments sent {Store} w.

(** An [async] function body: it runs on the world and returns or throws. *)
Definition Async (Store A : Type) : Type :=
  World Store → Outcome A * World Store.

#[global] Instance Async_ret {Store} : MRet (Async Store) :=
  λ A a w, (Return a, w).

#[global] Instance Async_bind {Store} : MBind (Async Store) :=
  λ A B k c w,
    match c w with
    | (Return a, w') => k a w'
    | (Throw e, w') => (Throw e, w')
    end.

Definition throw {Store A} (e : Thrown) : Async Store A := λ w, (Throw e, w).

Definition lift {Store A} (o : Outcome A) : Async Store A := λ w, (o, w).

(** [await db.query(text, params)]: one round trip; a rejection is thrown. *)
Definition db_query {Store} (db : Executor Store) (q : Query) : Async Store (list Row) :=
  λ w,
    let '(answer, s) := db q (store w) in
    let w' := {| store := s; sent := sent w ++ [q] |} in
    match answer with
    | inr rows => (Return rows, w')
    | inl e => (Throw (StoreFailure e), w')
    end.

(** ** models/company.js *)

Module Company.

(** The argument of [findAll] after destructuring: [name] is any scalar
    ([undefined] when absent), the two bounds are absent or integers. *)
Record Filter : Type :=
  { name : JsVal; minEmployees : option Z; maxEmployees : option Z }.

Definition duplicateCheckSql : string :=
  "SELECT handle" +:+ nl +:+
  "           FROM companies" +:+ nl +:+
  "           WHERE handle = $1".

Definition insertSql : string :=
  "INSERT INTO companies" +:+ nl +:+
  "           (handle, name, description, num_employees, logo_url)" +:+ nl +:+
  "           VALUES ($1, $2, $3, $4, $5)" +:+ nl +:+
  "           RETURNING handle, name, description, num_employees AS " +:+ dq +:+ "numEmployees" +:+ dq +:+ ", logo_url AS " +:+ dq +:+ "logoUrl" +:+ dq.

Definition selectSql : string :=
  "SELECT handle," +:+ nl +:+
  "                  name," +:+ nl +:+
  "                  description," +:+ nl +:+
  "                  num_employees AS " +:+ dq +:+ "numEmployees" +:+ dq +:+ "," +:+ nl +:+
  "                  logo_url AS " +:+ dq +:+ "logoUrl" +:+ dq +:+ nl +:+
  "           FROM companies".

(** The [UPDATE] template around [${setCols}] and [${handleVarIdx}]. *)
Definition updateSql (setCols handleVarIdx : string) : string :=
  "UPDATE companies " +:+ nl +:+
  "                      SET " +:+ setCols +:+ " " +:+ nl +:+
  "                      WHERE handle = " +:+ handleVarIdx +:+ " " +:+ nl +:+
  "                      RETURNING handle, " +:+ nl +:+
  "                                name, " +:+ nl +:+
  "                                description, " +:+ nl +:+
  "                                num_employees AS " +:+ dq +:+ "numEmployees" +:+ dq +:+ ", " +:+ nl +:+
  "                                logo_url AS " +:+ dq +:+ "logoUrl" +:+ dq.

(** The table passed to [sqlForPartialUpdate] by [update]. *)
Definition jsToSql : gmap string string :=
  <["numEmployees" := "num_employees"]> (<["logoUrl" := "logo_url"]> ∅).

(** The three conditional pushes of [findAll]: the pair
    [(queryAdders, queryValues)] after them. *)
Definition filterClauses (filter : Filter) : list string * list JsVal :=
  let queryAdders : list string := [] in
  let queryValues : list JsVal := [] in
  let '(queryAdders, queryValues) :=
    if truthy (name filter) then
      let queryValues := queryValues ++ [VStr ("%" +:+ ToString (name filter) +:+ "%")] in
      (queryAdders ++ ["name ILIKE $" +:+ pretty (length queryValues)], queryValues)
    else (queryAdders, queryValues) in
  let '(queryAdders, queryValues) :=
    if defined (minEmployees filter) then
      let queryValues := queryValues ++ [num_or_undefined (minEmployees filter)] in
      (queryAdders ++ ["num_employees >= $" +:+ pretty (length queryValues)], queryValues)
    else (queryAdders, queryValues) in
  let '(queryAdders, queryValues) :=
    if defined (maxEmployees filter) then
      let queryValues := queryValues ++ [num_or_undefined (maxEmployees filter)] in
      (queryAdders ++ ["num_employees <= $" +:+ pretty (length queryValues)], queryValues)
    else (queryAdders, queryValues) in
  (queryAdders, queryValues).

(** The statement assembled from the clauses. *)
Definition assemble (clauses : list string * list JsVal) : Query :=
  let '(queryAdders, queryValues) := clauses in
  let queryString := selectSql in
  let queryString :=
    if bool_decide (0 < length queryAdders) then
      let filterString := join " AND " queryAdders in
      queryString +:+ " WHERE " +:+ filterString
    else queryString in
  let queryString := queryString +:+ " ORDER BY name" in
  {| text := queryString; params := queryValues |}.

Definition getSql : string :=
  "SELECT handle," +:+ nl +:+
  "                  name," +:+ nl +:+
  "                  description," +:+ nl +:+
  "                  num_employees AS " +:+ dq +:+ "numEmployees" +:+ dq +:+ "," +:+ nl +:+
  "                  logo_url AS " +:+ dq +:+ "logoUrl" +:+ dq +:+ nl +:+
  "           FROM companies" +:+ nl +:+
  "           WHERE handle = $1".

Definition removeSql : string :=
  "DELETE" +:+ nl +:+
  "           FROM companies" +:+ nl +:+
  "           WHERE handle = $1" +:+ nl +:+
  "           RETURNING handle".

Section Operations.
Context {Store : Type} (db : Executor Store).

Definition create (handle name description numEmployees logoUrl : JsVal)
    : Async Store (option Row) :=
  duplicateCheck ← db_query db {| text := duplicateCheckSql; params := [handle] |};
  if bool_decide (is_Some (duplicateCheck !! 0)) then
    throw (BadRequestError ("Duplicate company: " +:+ ToString handle))
  else
    result ← db_query db
      {| text := insertSql;
         params := [handle; name; description; numEmployees; logoUrl] |};
    let company := result !! 0 in
    mret company.

Definition findAll (filter : Filter) : Async Store (list Row) :=
  if js_gt (minEmployees filter) (maxEmployees filter) then
    throw (BadRequestError "minimum input can not be higher than maximum input")
  else
    companiesRes ← db_query db (assemble (filterClauses filter));
    mret companiesRes.

Definition update (handle : JsVal) (data : JsObject) : Async Store Row :=
  clause ← lift (sqlForPartialUpdate data jsToSql);
  let handleVarIdx := "$" +:+ pretty (length (values clause) + 1) in
  let querySql := updateSql (setCols clause) handleVarIdx in
  result ← db_query db {| text := querySql; params := values clause ++ [handle] |};
  match result !! 0 with
  | Some company => mret company
  | None => throw (NotFoundError ("No company: " +:+ ToString handle))
  end.

(** [get]: the first row of the answer, [NotFoundError] without one. *)
Definition get (handle : JsVal) : Async Store Row :=
  companyRes ← db_query db {| text := getSql; params := [handle] |};
  let company := companyRes !! 0 in
  match company with
  | Some company => mret company
  | None => throw (NotFoundError ("No company: " +:+ ToString handle))
  end.

(** [remove] returns [undefined]. *)
Definition remove (handle : JsVal) : Async Store unit :=
  result ← db_query db {| text := removeSql; params := [handle] |};
  let company := result !! 0 in
  match company with
  | Some _ => mret ()
  | None => throw (NotFoundError ("No company: " +:+ ToString handle))
  end.

End Operations.

End Company.

(** ** models/jobs.js *)

Module Job.

(** The argument of [findAll] after destructuring: [title] and
    [hasEquity] are any scalars ([undefined] when absent), the bound is
    absent or an integer. *)
Record Filter : Type :=
  { title : JsVal; minSalary : option Z; hasEquity : JsVal }.

Definition duplicateCheckSql : string :=
  "SELECT id" +:+ nl +:+
  "        FROM jobs" +:+ nl +:+
  "        WHERE id = $1".

Definition insertSql : string :=
  "INSERT INTO jobs" +:+ nl +:+
  "        (id, title, salary, equity, company_handle)" +:+ nl +:+
  "        VALUES ($1, $2, $3, $4, $5)" +:+ nl +:+
  "        RETURNING id, title, salary, equity, company_handle AS " +:+ dq +:+ "companyHandle" +:+ dq.

Definition selectSql : string :=
  "SELECT title," +:+ nl +:+
  "                salary," +:+ nl +:+
  "                equity," +:+ nl +:+
  "                company_handle AS " +:+ dq +:+ "companyHandle" +:+ dq +:+ nl +:+
  "        FROM jobs".

(** The [UPDATE] template around [${setCols}] and [${idVarIdx}]. *)
Definition updateSql (setCols idVarIdx : string) : string :=
  "UPDATE jobs " +:+ nl +:+
  "                    SET " +:+ setCols +:+ " " +:+ nl +:+
  "                    WHERE id = " +:+ idVarIdx +:+ " " +:+ nl +:+
  "                    RETURNING id, " +:+ nl +:+
  "                            title, " +:+ nl +:+
  "                            salary, " +:+ nl +:+
  "                            equity, " +:+ nl +:+
  "                            company_handle AS " +:+ dq +:+ "companyHandle" +:+ dq.

(** The table passed to [sqlForPartialUpdate] by [update]. *)
Definition jsToSql : gmap string string :=
  <["title" := "title"]> (<["salary" := "salary"]> (<["equity" := "equity"]> ∅)).

(** The three conditional pushes of [findAll]: the pair
    [(queryAdders, queryValues)] after them.  (The [console.log] of the
    third is not modelled.) *)
Definition filterClauses (filter : Filter) : list string * list JsVal :=
  let queryAdders : list string := [] in
  let queryValues : list JsVal := [] in
  let '(queryAdders, queryValues) :=
    if truthy (title filter) then
      let queryValues := queryValues ++ [VStr ("%" +:+ ToString (title filter) +:+ "%")] in
      (queryAdders ++ ["title ILIKE $" +:+ pretty (length queryValues)], queryValues)
    else (queryAdders, queryValues) in
  let '(queryAdders, queryValues) :=
    if defined (minSalary filter) then
      let queryValues := queryValues ++ [num_or_undefined (minSalary filter)] in
      (queryAdders ++ ["salary >= $" +:+ pretty (length queryValues)], queryValues)
    else (queryAdders, queryValues) in
  let queryAdders :=
    if strict_eq (hasEquity filter) (VStr "true") then queryAdders ++ ["equity > 0"]
    else queryAdders in
  (queryAdders, queryValues).

(** The statement assembled from the clauses. *)
Definition assemble (clauses : list string * list JsVal) : Query :=
  let '(queryAdders, queryValues) := clauses in
  let queryString := selectSql in
  let queryString :=
    if bool_decide (0 < length queryAdders) then
      let filterString := join " AND " queryAdders in
      queryString +:+ " WHERE " +:+ filterString
    else queryString in
  let queryString := queryString +:+ " ORDER BY title" in
  {| text := queryString; params := queryValues |}.

Definition getSql : string :=
  "SELECT id, title, salary, equity, company_handle AS " +:+ dq +:+ "companyHandle" +:+ dq +:+ nl +:+
  "        FROM jobs" +:+ nl +:+
  "        WHERE id = $1".

Definition removeSql : string :=
  "DELETE" +:+ nl +:+
  "        FROM jobs" +:+ nl +:+
  "        WHERE id = $1" +:+ nl +:+
  "        RETURNING id".

Section Operations.
Context {Store : Type} (db : Executor Store).

Definition create (id title salary equity companyHandle : JsVal)
    : Async Store (option Row) :=
  duplicateCheck ← db_query db {| text := duplicateCheckSql; params := [id] |};
  if bool_decide (is_Some (duplicateCheck !! 0)) then
    throw (BadRequestError ("Duplicate job: " +:+ ToString title))
  else
    result ← db_query db
      {| text := insertSql;
         params := [id; title; salary; equity; companyHandle] |};
    let job := result !! 0 in
    mret job.

Definition findAll (filter : Filter) : Async Store (list Row) :=
  jobsRes ← db_query db (assemble (filterClauses filter));
  mret jobsRes.

Definition update (id : JsVal) (data : JsObject) : Async Store Row :=
  clause ← lift (sqlForPartialUpdate data jsToSql);
  let idVarIdx := "$" +:+ pretty (length (values clause) + 1) in
  let querySql := updateSql (setCols clause) idVarIdx in
  result ← db_query db {| text := querySql; params := values clause ++ [id] |};
  match result !! 0 with
  | Some job => mret job
  | None => throw (NotFoundError ("No job: " +:+ ToString id))
  end.

(** [get]: the first row of the answer, [NotFoundError] without one. *)
Definition get (id : JsVal) : Async Store Row :=
  jobRes ← db_query db {| text := getSql; params := [id] |};
  let job := jobRes !! 0 in
  match job with
  | Some job => mret job
  | None => throw (NotFoundError ("No job: " +:+ ToString id))
  end.

(** [remove] returns [undefined]. *)
Definition remove (id : JsVal) : Async Store unit :=
  result ← db_query db {| text := removeSql; params := [id] |};
  let job := result !! 0 in
  match job with
  | Some _ => mret ()
  | None => throw (NotFoundError ("No job: " +:+ ToString id))
  end.

End Operations.

End Job.

(** ** routes/users.js *)

(** The six handlers given to the router.  The [ensureLoggedIn] middleware
    that the router runs before five of them is not part of this file and
    is not modelled: a handler is given [res.locals.user] as it finds it. *)
Module UserRoutes.

(** [res.locals.user]: the caller as the token describes it. *)
Record LocalsUser : Type := { isAdmin : JsVal; username : JsVal }.

(** What a handler passes to [next]: an error thrown by the user model,
    [new BadRequestError(errs)] with the validator's messages,
    [new UnauthorizedError(message)], or the [TypeError] of reading a
    property of an undefined [res.locals.user]. *)
Inductive RouteError (E : Type) : Type :=
  | ModelError (e : E)
  | BadRequest (errs : list string)
  | Unauthorized (message : string)
  | TypeError.
Arguments ModelError {E} e.
Arguments BadRequest {E} errs.
Arguments Unauthorized {E} message.
Arguments TypeError {E}.

(** The result of [jsonschema.validate]. *)
Record SchemaError : Type := { stack : string }.
Record Validator : Type := { valid : bool; errors : list SchemaError }.

(** The body given to [res.json]. *)
Inductive Payload (U T : Type) : Type :=
  | UserToken (user : U) (token : T)
  | Users (users : list U)
  | User (user : U)
  | Deleted (deleted : string)
  | Applied (applied : string).
Arguments UserToken {U T} user token.
Arguments Users {U T} users.
Arguments User {U T} user.
Arguments Deleted {U T} deleted.
Arguments Applied {U T} applied.

(** What a handler ends with: [res.status(status).json(body)] or
    [next(err)]. *)
Inductive Reply (E U T : Type) : Type :=
  | Json (status : nat) (body : Payload U T)
  | Next (err : RouteError E).
Arguments Json {E U T} status body.
Arguments Next {E U T} err.

(** The body of a [try] block over the state of the user model. *)
Definition Handler (S E A : Type) : Type := S → (RouteError E + A) * S.

#[global] Instance Handler_ret {S E} : MRet (Handler S E) :=
  λ A a s, (inr a, s).

#[global] Instance Handler_bind {S E} : MBind (Handler S E) :=
  λ A B k c s,
    match c s with
    | (inr a, s') => k a s'
    | (inl err, s') => (inl err, s')
    end.

Definition raise {S E A} (err : RouteError E) : Handler S E A := λ s, (inl err, s).

(** [await] of an operation of the user model. *)
Definition await {S E A} (op : S → (E + A) * S) : Handler S E A :=
  λ s,
    match op s with
    | (inr a, s') => (inr a, s')
    | (inl e, s') => (inl (ModelError e), s')
    end.

(** [try { ... } catch (err) { return next(err); }] *)
Definition try_next {S E U T} (body : Handler S E (Reply E U T)) : S → Reply E U T * S :=
  λ s,
    match body s with
    | (inr reply, s') => (reply, s')
    | (inl err, s') => (Next err, s')
    end.

(** [if (res.locals.user.isAdmin === false) throw new UnauthorizedError(...)] *)
Definition admin_only {S E} (user : option LocalsUser) : Handler S E unit :=
  match user with
  | None => raise TypeError
  | Some user =>
      if strict_eq (isAdmin user) (VBool false)
      then raise (Unauthorized "Only admin can reach this route")
      else mret ()
  end.

(** [if (res.locals.user.isAdmin === false &&
         res.locals.user.username !== req.params.username) throw ...] *)
Definition admin_or_same_user {S E} (user : option LocalsUser) (param : string)
    : Handler S E unit :=
  match user with
  | None => raise TypeError
  | Some user =>
      if strict_eq (isAdmin user) (VBool false)
         && negb (strict_eq (username user) (VStr param))
      then raise (Unauthorized "Only admin or this user can reach this route")
      else mret ()
  end.

Section Handlers.
Context {S E Body U T : Type}.

(** The collaborators that are not part of this file: the validator on
    the two schemas, the operations of the user model and [createToken]. *)
Context (validate_userNew validate_userUpdate : Body → Validator).
Context (User_register : Body → S → (E + U) * S).
Context (User_findAll : S → (E + list U) * S).
Context (User_get : string → S → (E + U) * S).
Context (User_update : string → Body → S → (E + U) * S).
Context (User_remove : string → S → (E + unit) * S).
Context (User_applied : string → string → S → (E + unit) * S).
Context (createToken : U → T).

(** [if (!validator.valid) throw new BadRequestError(errs)] *)
Definition check_valid (validator : Validator) : Handler S E unit :=
  if negb (valid validator) then
    let errs := stack <$> errors validator in
    raise (BadRequest errs)
  else mret ().

(** POST / *)
Definition post_root (user : option LocalsUser) (body : Body) : S → Reply E U T * S :=
  try_next (
    let validator := validate_userNew body in
    _ ← check_valid validator;
    _ ← admin_only user;
    registered ← await (User_register body);
    let token := createToken registered in
    mret (Json 201 (UserToken registered token))).

(** GET / *)
Definition get_root (user : option LocalsUser) : S → Reply E U T * S :=
  try_next (
    users ← await User_findAll;
    _ ← admin_only user;
    mret (Json 200 (Users users))).

(** GET /:username *)
Definition get_username (user : option LocalsUser) (param : string)
    : S → Reply E U T * S :=
  try_next (
    found ← await (User_get param);
    _ ← admin_or_same_user user param;
    mret (Json 200 (User found))).

(** PATCH /:username *)
Definition patch_username (user : option LocalsUser) (param : string) (body : Body)
    : S → Reply E U T * S :=
  try_next (
    let validator := validate_userUpdate body in
    _ ← check_valid validator;
    updated ← await (User_update param body);
    _ ← admin_or_same_user user param;
    mret (Json 200 (User updated))).

(** DELETE /:username *)
Definition delete_username (user : option LocalsUser) (param : string)
    : S → Reply E U T * S :=
  try_next (
    _ ← await (User_remove param);
    _ ← admin_or_same_user user param;
    mret (Json 200 (Deleted param))).

(** POST /:username/jobs/:id *)
Definition post_username_jobs_id (user : option LocalsUser) (param id : string)
    : S → Reply E U T * S :=
  try_next (
    _ ← await (User_applied param id);
    _ ← admin_or_same_user user param;
    mret (Json 201 (Applied id))).

End Handlers.

End UserRoutes.

(** * Vocabulary of the statements *)

(** The placeholder [$i] and the [SET] token ["<column>"=$i]. *)
Definition placeholder (i : nat) : string := "$" +:+ pretty i.

Definition set_token (column : string) (i : nat) : string :=
  dq +:+ column +:+ dq +:+ "=" +:+ placeholder i.

(** The column a field resolves to: the table's own entry when it is not
    the empty string; without an own entry, the string of the member that
    the table inherits under that name; the field name otherwise. *)
Definition column_of (jsToSql : gmap string string) (field : string) : string :=
  match jsToSql !! field with
  | Some c => if bool_decide (c = "") then field else c
  | None => default field (Object_prototype field)
  end.

(** The column as the specification words it: the table's entry, the
    field name if the field is absent from the table. *)
Definition column_as_specified (jsToSql : gmap string string) (field : string) : string :=
  default field (jsToSql !! field).

(** The result of the partial-update compiler as the specification words
    it, on non-empty data. *)
Definition compileSet_as_specified
    (partialData : JsObject) (fieldMapping : gmap string string) : SetClause :=
  {| setCols :=
       join ", " (imap (λ i entry, set_token (column_as_specified fieldMapping entry.1) (i + 1))
                       partialData);
     values := partialData.*2 |}.

(** The tokens of the [SET] clause, one per entry as enumerated. *)
Definition set_tokens (jsToSql : gmap string string) (data : JsObject) : list string :=
  imap (λ i entry, set_token (column_of jsToSql entry.1) (i + 1)) (Object_entries data).

(** An executor that answers every statement with no rows. *)
Definition empty_db : Executor unit := λ _ s, (inr [], s).

(** Closes a goal [s1 = s2 → False] between strings that differ within
    their literal prefixes. *)
Ltac strings_differ :=
  let H := fresh in intros H; simpl in H; discriminate H.

(** Whether [pattern] occurs in [s]. *)
Definition occurs (pattern s : string) : bool :=
  match index 0 pattern s with Some _ => true | None => false end.

(** The clauses after the first, each led by the conjunction. *)
Fixpoint and_chain (rest : list string) : string :=
  match rest with
  | [] => ""
  | clause :: rest' => " AND " +:+ clause +:+ and_chain rest'
  end.

(** The part of a statement between the [SELECT] and the [ORDER BY]:
    nothing without clauses, else [WHERE], the first clause, and the
    others each led by the conjunction. *)
Definition where_clause (clauses : list string) : string :=
  match clauses with
  | [] => ""
  | first :: rest => " WHERE " +:+ first +:+ and_chain rest
  end.



(** Two company filters agree on what is present and on the range check. *)
Definition company_same_presence (f g : Company.Filter) : Prop :=
  truthy (Company.name f) = truthy (Company.name g)
  ∧ defined (Company.minEmployees f) = defined (Company.minEmployees g)
  ∧ defined (Company.maxEmployees f) = defined (Company.maxEmployees g)
  ∧ js_gt (Company.minEmployees f) (Company.maxEmployees f)
    = js_gt (Company.minEmployees g) (Company.maxEmployees g).

(** Two job filters agree on what is present and on the equity flag. *)
Definition job_same_presence (f g : Job.Filter) : Prop :=
  truthy (Job.title f) = truthy (Job.title g)
  ∧ defined (Job.minSalary f) = defined (Job.minSalary g)
  ∧ strict_eq (Job.hasEquity f) (VStr "true") = strict_eq (Job.hasEquity g) (VStr "true").

(** Two filters supply the same fields: each member is [undefined] in
    both or in neither. *)
Definition company_same_fields (f g : Company.Filter) : Prop :=
  (Company.name f = VUndefined ↔ Company.name g = VUndefined)
  ∧ (Company.minEmployees f = None ↔ Company.minEmployees g = None)
  ∧ (Company.maxEmployees f = None ↔ Company.maxEmployees g = None).

Definition job_same_fields (f g : Job.Filter) : Prop :=
  (Job.title f = VUndefined ↔ Job.title g = VUndefined)
  ∧ (Job.minSalary f = None ↔ Job.minSalary g = None)
  ∧ Job.hasEquity f = Job.hasEquity g.

(** The two statements of each [create]: the existence lookup and the
    insert. *)
Definition company_check (handle : JsVal) : Query :=
  {| text := Company.duplicateCheckSql; params := [handle] |}.

Definition company_insert (handle name description numEmployees logoUrl : JsVal) : Query :=
  {| text := Company.insertSql;
     params := [handle; name; description; numEmployees; logoUrl] |}.

Definition job_check (id : JsVal) : Query :=
  {| text := Job.duplicateCheckSql; params := [id] |}.

Definition job_insert (id title salary equity companyHandle : JsVal) : Query :=
  {| text := Job.insertSql; params := [id; title; salary; equity; companyHandle] |}.


(** The statements of [get], [remove] and [update]. *)
Definition company_get (handle : JsVal) : Query :=
  {| text := Company.getSql; params := [handle] |}.

Definition company_remove (handle : JsVal) : Query :=
  {| text := Company.removeSql; params := [handle] |}.

Definition job_get (id : JsVal) : Query :=
  {| text := Job.getSql; params := [id] |}.

Definition job_remove (id : JsVal) : Query :=
  {| text := Job.removeSql; params := [id] |}.

Definition company_update (handle : JsVal) (data : JsObject) : Query :=
  {| text := Company.updateSql (join ", " (set_tokens Company.jsToSql data))
               (placeholder (length data + 1));
     params := (Object_entries data).*2 ++ [handle] |}.

Definition job_update (id : JsVal) (data : JsObject) : Query :=
  {| text := Job.updateSql (join ", " (set_tokens Job.jsToSql data))
               (placeholder (length data + 1));
     params := (Object_entries data).*2 ++ [id] |}.

(** The world after one round trip with statement [q]. *)
Definition after {Store} (db : Executor Store) (q : Query) (w : World Store) : World Store :=
  {| store := (db q (store w)).2; sent := sent w ++ [q] |}.

(** A store that answers the lookups with no row and every other
    statement with one row holding the first bound value. *)
Definition accepting_db : Executor nat :=
  λ q n,
    (if bool_decide (text q = Company.duplicateCheckSql ∨ text q = Job.duplicateCheckSql)
     then inr []
     else inr [[("key", default VUndefined (params q !! 0))]], S n).

(** The criteria that are present, in the order of the pushes: the
    comparison each one contributes and the value it binds. *)
Definition company_criteria (filter : Company.Filter) : list (string * JsVal) :=
  (if truthy (Company.name filter)
   then [("name ILIKE ", VStr ("%" +:+ ToString (Company.name filter) +:+ "%"))]
   else [])
  ++ match Company.minEmployees filter with
     | Some n => [("num_employees >= ", VNum n)]
     | None => []
     end
  ++ match Company.maxEmployees filter with
     | Some n => [("num_employees <= ", VNum n)]
     | None => []
     end.

Definition job_criteria (filter : Job.Filter) : list (string * JsVal) :=
  (if truthy (Job.title filter)
   then [("title ILIKE ", VStr ("%" +:+ ToString (Job.title filter) +:+ "%"))]
   else [])
  ++ match Job.minSalary filter with
     | Some n => [("salary >= ", VNum n)]
     | None => []
     end.

(** Each comparison followed by the placeholder of its position. *)
Definition numbered (criteria : list (string * JsVal)) : list string :=
  imap (λ i criterion, criterion.1 +:+ placeholder (i + 1)) criteria.

(** Unfolds a handler of the user routes down to the answers of its
    collaborators. *)
Ltac unfold_handler :=
  unfold UserRoutes.post_root, UserRoutes.get_root, UserRoutes.get_username,
    UserRoutes.patch_username, UserRoutes.delete_username,
    UserRoutes.post_username_jobs_id, UserRoutes.try_next, UserRoutes.check_valid,
    UserRoutes.admin_only, UserRoutes.admin_or_same_user, UserRoutes.await,
    UserRoutes.raise, mbind, UserRoutes.Handler_bind, mret, UserRoutes.Handler_ret.

(** * Properties *)

(** ** JavaScript values and objects *)

Example ToString_numbers :
  ToString (VNum 0) = "0"
  ∧ ToString (VNum (-42)) = "-42"
  ∧ ToString (VNum (2 ^ 53)) = "9007199254740992"
  ∧ ToString (VNum (2 ^ 64)) = "18446744073709552000"
  ∧ ToString (VNum (10 ^ 21 - 1)) = "1e+21"
  ∧ ToString (VNum (10 ^ 21)) = "1e+21"
  ∧ ToString (VNum (2 ^ 70)) = "1.1805916207174113e+21"
  ∧ ToString (VNum (- 10 ^ 23)) = "-1e+23".
Proof. repeat split; vm_compute; reflexivity. Qed.

Example Object_keys_order :
  Object_keys [("b", VNull); ("10", VNull); ("01", VNull); ("9", VNull);
               ("a", VNull); ("4294967295", VNull); ("0", VNull)]
  = ["0"; "9"; "10"; "b"; "01"; "a"; "4294967295"].
Proof. vm_compute. reflexivity. Qed.

Example Object_prototype_members :
  prop ∅ "constructor" = Inherited "function Object() { [native code] }"
  ∧ prop ∅ "toString" = Inherited "function toString() { [native code] }"
  ∧ prop ∅ "__proto__" = Inherited "[object Object]"
  ∧ prop {["toString" := "to_string"]} "toString" = Scalar (VStr "to_string")
  ∧ prop ∅ "title" = Scalar VUndefined.
Proof. repeat split; vm_compute; reflexivity. Qed.

(** ** The partial-update compiler *)

Example sql_test :
  sqlForPartialUpdate
    [("firstName", VStr "user"); ("lastName", VStr "test")]
    (<["firstName" := "first_name"]> (<["lastName" := "last_name"]>
       (<["isAdmin" := "is_admin"]> ∅)))
  = Return {| setCols := dq +:+ "first_name" +:+ dq +:+ "=$1, "
                            +:+ dq +:+ "last_name" +:+ dq +:+ "=$2";
              values := [VStr "user"; VStr "test"] |}.
Proof. vm_compute. reflexivity. Qed.

Lemma append_empty_r (a : string) : a +:+ "" = a.
Proof. induction a as [|x a IH]; simpl; [reflexivity | by f_equal]. Qed.

(** *** Enumeration of the own properties *)

Lemma insert_by_perm {A} (rank : A → N) (x : A) (l : list A) :
  insert_by rank x l ≡ₚ x :: l.
Proof.
  induction l as [|y l IH]; simpl; [done|].
  destruct (rank x <? rank y)%N; [done|].
  by rewrite IH, Permutation_swap.
Qed.

Lemma sort_by_perm {A} (rank : A → N) (l : list A) : sort_by rank l ≡ₚ l.
Proof.
  induction l as [|x l IH]; simpl; [done|].
  by rewrite insert_by_perm, IH.
Qed.

(** Enumeration keeps every property, exactly once. *)
Lemma enumerate_perm {A} (key : A → string) (l : list A) : enumerate key l ≡ₚ l.
Proof.
  unfold enumerate. rewrite sort_by_perm. apply filter_app_complement.
Qed.

Lemma insert_by_fmap {A B} (f : A → B) (rank : B → N) (x : A) (l : list A) :
  f <$> insert_by (λ a, rank (f a)) x l = insert_by rank (f x) (f <$> l).
Proof.
  induction l as [|y l IH]; [done|]. cbn [insert_by fmap list_fmap].
  destruct (rank (f x) <? rank (f y))%N; [done|].
  cbn [fmap list_fmap]. f_equal. apply IH.
Qed.

Lemma sort_by_fmap {A B} (f : A → B) (rank : B → N) (l : list A) :
  f <$> sort_by (λ a, rank (f a)) l = sort_by rank (f <$> l).
Proof.
  unfold sort_by. induction l as [|x l IH]; [done|].
  cbn [foldr fmap list_fmap]. rewrite insert_by_fmap. f_equal. apply IH.
Qed.

Lemma filter_fmap_key {A B} (f : A → B) (P : B → Prop) `{∀ y, Decision (P y)}
    (l : list A) :
  f <$> filter (λ x, P (f x)) l = filter P (f <$> l).
Proof.
  induction l as [|x l IH]; [done|].
  rewrite fmap_cons, !filter_cons.
  destruct (decide (P (f x))); [rewrite fmap_cons|]; by rewrite IH.
Qed.

(** The enumeration of the keys depends on the keys only. *)
Lemma enumerate_fmap {A} (key : A → string) (l : list A) :
  key <$> enumerate key l = enumerate (λ k, k) (key <$> l).
Proof.
  unfold enumerate. rewrite fmap_app.
  rewrite <- (filter_fmap_key key (λ k, is_Some (array_index k))).
  rewrite <- (filter_fmap_key key (λ k, ¬ is_Some (array_index k))).
  by rewrite <- (sort_by_fmap key (λ k, default 0%N (array_index k))).
Qed.

(** Without array indices among the keys, the enumeration is the order of
    insertion. *)
Lemma enumerate_insertion_order {A} (key : A → string) (l : list A) :
  (∀ x, x ∈ l → array_index (key x) = None) → enumerate key l = l.
Proof.
  intros Hnone. unfold enumerate.
  assert (Hidx : filter (λ x, is_Some (array_index (key x))) l = []).
  { induction l as [|x l IH]; [done|]. rewrite filter_cons.
    destruct (decide _) as [[n Hn]|_].
    - rewrite (Hnone x) in Hn by apply list_elem_of_here. discriminate Hn.
    - apply IH. intros y Hy. apply Hnone. by apply list_elem_of_further. }
  assert (Hrest : filter (λ x, ¬ is_Some (array_index (key x))) l = l).
  { induction l as [|x l IH]; [done|]. rewrite filter_cons.
    destruct (decide _) as [_|Hn].
    - f_equal. apply IH.
      + intros y Hy. apply Hnone. by apply list_elem_of_further.
      + rewrite filter_cons in Hidx. destruct (decide _); [discriminate Hidx | done].
    - destruct Hn. intros [n Hn].
      rewrite (Hnone x) in Hn by apply list_elem_of_here. discriminate Hn. }
  by rewrite Hidx, Hrest.
Qed.

Lemma Object_entries_length (data : JsObject) :
  length (Object_entries data) = length data.
Proof. unfold Object_entries. by rewrite enumerate_perm. Qed.

Lemma Object_keys_of_keys (d1 d2 : JsObject) :
  d1.*1 = d2.*1 → Object_keys d1 = Object_keys d2.
Proof.
  intros Hkeys. unfold Object_keys, Object_entries.
  by rewrite !enumerate_fmap, Hkeys.
Qed.

(** *** The column of a field *)

Lemma resolve_column (jsToSql : gmap string string) (colName : string) :
  Member_ToString (js_or (prop jsToSql colName) (Scalar (VStr colName)))
  = column_of jsToSql colName.
Proof.
  unfold js_or, prop, column_of.
  destruct (jsToSql !! colName) as [c|]; simpl.
  - by case_bool_decide.
  - by destruct (Object_prototype colName).
Qed.

Lemma set_tokens_length jsToSql data : length (set_tokens jsToSql data) = length data.
Proof. unfold set_tokens. by rewrite length_imap, Object_entries_length. Qed.

Lemma set_tokens_lookup jsToSql (data : JsObject) i field v :
  Object_entries data !! i = Some (field, v) →
  set_tokens jsToSql data !! i = Some (set_token (column_of jsToSql field) (i + 1)).
Proof. intros H. unfold set_tokens. by rewrite list_lookup_imap, H. Qed.

Lemma values_lookup (entries : JsObject) i field v :
  entries !! i = Some (field, v) → entries.*2 !! i = Some v.
Proof. intros H. by rewrite list_lookup_fmap, H. Qed.

Lemma sqlForPartialUpdate_nonempty (data : JsObject) (jsToSql : gmap string string) :
  data ≠ [] →
  sqlForPartialUpdate data jsToSql
  = Return {| setCols := join ", " (set_tokens jsToSql data);
              values := (Object_entries data).*2 |}.
Proof.
  intros Hne. unfold sqlForPartialUpdate, Object_keys, Object_values.
  rewrite length_fmap, Object_entries_length. case_bool_decide as Hlen.
  - destruct data; [done | discriminate Hlen].
  - do 3 f_equal. unfold set_tokens. rewrite imap_fmap.
    apply imap_ext. intros i [field v] _. simpl.
    by rewrite resolve_column.
Qed.

(** *** The order of the enumeration *)

Lemma insert_by_sorted {A} (rank : A → N) (x : A) (l : list A) :
  StronglySorted (λ a b, (rank a ≤ rank b)%N) l →
  StronglySorted (λ a b, (rank a ≤ rank b)%N) (insert_by rank x l).
Proof.
  induction 1 as [|y l Hl IH Hy]; simpl.
  - repeat constructor.
  - destruct (N.ltb_spec (rank x) (rank y)) as [Hlt|Hge].
    + constructor; [by constructor|].
      constructor; [lia|]. eapply Forall_impl; [exact Hy|]. simpl. lia.
    + constructor; [exact IH|].
      rewrite insert_by_perm. by constructor.
Qed.

Lemma sort_by_sorted {A} (rank : A → N) (l : list A) :
  StronglySorted (λ a b, (rank a ≤ rank b)%N) (sort_by rank l).
Proof.
  unfold sort_by. induction l as [|x l IH]; simpl; [constructor|].
  by apply insert_by_sorted.
Qed.

(** C1 (as amended).  On non-empty data the compiler returns the
    comma-joined tokens ["<column>"=$i], i = 1..N, one per entry in the
    order in which [Object.keys] enumerates the entries, together with
    exactly N values, the i-th being the value of the i-th entry so
    enumerated.  The enumeration holds every entry once: the entries whose
    key is an array index first, by ascending index, then the others in
    their insertion order (so it is the insertion order when no key is an
    array index).  <column> is the table's own entry for the field when
    that entry is not the empty string; without an own entry, the string of
    the member the table inherits from [Object.prototype] under that name;
    the field name otherwise. *)
Theorem C1_compileSet_positional (data : JsObject) (jsToSql : gmap string string) :
  data ≠ [] →
  ∃ tokens vals,
    sqlForPartialUpdate data jsToSql
      = Return {| setCols := join ", " tokens; values := vals |}
    ∧ length tokens = length data
    ∧ length vals = length data
    ∧ (∀ i field v,
         Object_entries data !! i = Some (field, v) →
         tokens !! i = Some (set_token (column_of jsToSql field) (i + 1))
         ∧ vals !! i = Some v)
    ∧ (∃ indexed,
         Object_entries data
         = indexed ++ filter (λ entry, ¬ is_Some (array_index entry.1)) data
         ∧ indexed ≡ₚ filter (λ entry, is_Some (array_index entry.1)) data
         ∧ StronglySorted
             (λ a b, (default 0 (array_index a.1) ≤ default 0 (array_index b.1))%N)
             indexed)
    ∧ ((∀ field v, (field, v) ∈ data → array_index field = None) →
       Object_entries data = data).
Proof.
  intros Hne. exists (set_tokens jsToSql data), ((Object_entries data).*2).
  split; [by apply sqlForPartialUpdate_nonempty|].
  split; [apply set_tokens_length|].
  split; [by rewrite length_fmap, Object_entries_length|].
  split; [|split].
  - intros i field v Hi. split.
    + by eapply set_tokens_lookup.
    + by eapply values_lookup.
  - eexists. split; [reflexivity|]. split.
    + apply sort_by_perm.
    + apply (sort_by_sorted (λ entry : string * JsVal, default 0%N (array_index entry.1))).
  - intros Hnone. apply enumerate_insertion_order.
    intros [field v] Hin. by apply (Hnone field v).
Qed.

(** The specification's end-to-end example, through C1. *)
Lemma C1_compileSet_positional_witness :
  let data := [("firstName", VStr "user"); ("lastName", VStr "test")] in
  let jsToSql : gmap string string :=
    <["firstName" := "first_name"]> (<["lastName" := "last_name"]> ∅) in
  data ≠ [] ∧
  sqlForPartialUpdate data jsToSql
  = Return {| setCols := dq +:+ "first_name" +:+ dq +:+ "=$1, "
                            +:+ dq +:+ "last_name" +:+ dq +:+ "=$2";
              values := [VStr "user"; VStr "test"] |}.
Proof.
  intros data jsToSql. split; [discriminate|].
  destruct (C1_compileSet_positional data jsToSql) as
    (tokens & vals & -> & Hlen & Hlenv & Hat & _); [discriminate|].
  destruct tokens as [|t1 [|t2 [|t3 tokens]]]; try discriminate Hlen.
  destruct vals as [|v1 [|v2 [|v3 vals]]]; try discriminate Hlenv.
  destruct (Hat 0 "firstName" (VStr "user") eq_refl) as [H0 G0].
  destruct (Hat 1 "lastName" (VStr "test") eq_refl) as [H1 G1].
  simpl in H0, H1, G0, G1.
  injection H0 as ->. injection H1 as ->. injection G0 as ->. injection G1 as ->.
  vm_compute. reflexivity.
Defined.

(** C1 as stated fails in three ways.  Where the table maps a field to
    the empty string, [jsToSql[colName] || colName] falls back to the field
    name.  Where the table has no entry for a field named like a member of
    [Object.prototype], the lookup finds the inherited member, not
    [undefined].  Where a key of the data is an array index, [Object.keys]
    enumerates it before the keys inserted earlier. *)
Lemma C1_empty_column_counterexample :
  let empty_entry := ([("a", VStr "x")], ({["a" := ""]} : gmap string string)) in
  let inherited := ([("constructor", VStr "x")], (∅ : gmap string string)) in
  let index_key := ([("b", VNum 1); ("1", VNum 2)], (∅ : gmap string string)) in
  (empty_entry.1 ≠ []
   ∧ sqlForPartialUpdate empty_entry.1 empty_entry.2
     = Return {| setCols := dq +:+ "a" +:+ dq +:+ "=$1"; values := [VStr "x"] |}
   ∧ compileSet_as_specified empty_entry.1 empty_entry.2
     = {| setCols := dq +:+ dq +:+ "=$1"; values := [VStr "x"] |}
   ∧ sqlForPartialUpdate empty_entry.1 empty_entry.2
     ≠ Return (compileSet_as_specified empty_entry.1 empty_entry.2))
  ∧ (inherited.1 ≠ []
     ∧ sqlForPartialUpdate inherited.1 inherited.2
       = Return {| setCols := dq +:+ "function Object() { [native code] }" +:+ dq +:+ "=$1";
                   values := [VStr "x"] |}
     ∧ compileSet_as_specified inherited.1 inherited.2
       = {| setCols := dq +:+ "constructor" +:+ dq +:+ "=$1"; values := [VStr "x"] |}
     ∧ sqlForPartialUpdate inherited.1 inherited.2
       ≠ Return (compileSet_as_specified inherited.1 inherited.2))
  ∧ (index_key.1 ≠ []
     ∧ sqlForPartialUpdate index_key.1 index_key.2
       = Return {| setCols := dq +:+ "1" +:+ dq +:+ "=$1, " +:+ dq +:+ "b" +:+ dq +:+ "=$2";
                   values := [VNum 2; VNum 1] |}
     ∧ compileSet_as_specified index_key.1 index_key.2
       = {| setCols := dq +:+ "b" +:+ dq +:+ "=$1, " +:+ dq +:+ "1" +:+ dq +:+ "=$2";
            values := [VNum 1; VNum 2] |}
     ∧ sqlForPartialUpdate index_key.1 index_key.2
       ≠ Return (compileSet_as_specified index_key.1 index_key.2)).
Proof.
  intros empty_entry inherited index_key.
  repeat match goal with |- _ ∧ _ => split end;
    try discriminate; vm_compute; try reflexivity; discriminate.
Qed.

(** C4.  On empty data the compiler throws [BadRequestError("No data")],
    the taxonomy's [NoUpdateDataError], whatever the table; no fragment is
    returned. *)
Theorem C4_compileSet_empty (jsToSql : gmap string string) :
  sqlForPartialUpdate [] jsToSql = Throw NoUpdateDataError
  ∧ ∀ clause, sqlForPartialUpdate [] jsToSql ≠ Return clause.
Proof. split; [reflexivity | discriminate]. Qed.

(** ** The monad and the executor *)

Lemma bind_mret_r {Store A} (c : Async Store A) (w : World Store) :
  (a ← c; mret a) w = c w.
Proof.
  unfold mbind, Async_bind, mret, Async_ret.
  by destruct (c w) as [[a|e] w'].
Qed.

(** A round trip returns rows or throws the store's rejection, and nothing
    else; it submits exactly its statement. *)
Lemma db_query_outcome {Store} (db : Executor Store) (q : Query) (w : World Store) :
  (∃ rows, (db_query db q w).1 = Return rows)
  ∨ (∃ e, (db_query db q w).1 = Throw (StoreFailure e)).
Proof.
  unfold db_query. destruct (db q (store w)) as [[e|rows] s]; simpl; eauto.
Qed.

Lemma db_query_sent {Store} (db : Executor Store) (q : Query) (w : World Store) :
  sent (db_query db q w).2 = sent w ++ [q].
Proof.
  unfold db_query. by destruct (db q (store w)) as [[e|rows] s].
Qed.

Lemma db_query_fst {Store} (db : Executor Store) (q : Query) (w : World Store) :
  (db_query db q w).1
  = match (db q (store w)).1 with
    | inl e => Throw (StoreFailure e)
    | inr rows => Return rows
    end.
Proof. unfold db_query. by destruct (db q (store w)) as [[e|rows] s]. Qed.

(** ** The filter compilers *)

Lemma Company_findAll_unfold {Store} (db : Executor Store) (f : Company.Filter) w :
  Company.findAll db f w
  = if js_gt (Company.minEmployees f) (Company.maxEmployees f)
    then (Throw BadRangeError, w)
    else db_query db (Company.assemble (Company.filterClauses f)) w.
Proof.
  unfold Company.findAll. destruct (js_gt _ _); [reflexivity|].
  apply bind_mret_r.
Qed.

Lemma Job_findAll_unfold {Store} (db : Executor Store) (f : Job.Filter) w :
  Job.findAll db f w = db_query db (Job.assemble (Job.filterClauses f)) w.
Proof. apply bind_mret_r. Qed.

(** C3.  When both bounds are present and [minEmployees > maxEmployees],
    [Company.findAll] throws the bad-range [BadRequestError] whatever the
    name filter is, and the world is untouched: nothing was submitted to
    the store. *)
Theorem C3_bad_range_rejected {Store} (db : Executor Store)
    (name : JsVal) (minEmployees maxEmployees : Z) (w : World Store) :
  (minEmployees > maxEmployees)%Z →
  Company.findAll db
    {| Company.name := name;
       Company.minEmployees := Some minEmployees;
       Company.maxEmployees := Some maxEmployees |} w
  = (Throw BadRangeError, w).
Proof.
  intros Hgt. rewrite Company_findAll_unfold. simpl.
  by rewrite bool_decide_eq_true_2.
Qed.

(** The specification's end-to-end example, through C3. *)
Lemma C3_bad_range_rejected_witness :
  (50 > 10)%Z ∧
  Company.findAll empty_db
    {| Company.name := VUndefined;
       Company.minEmployees := Some 50%Z;
       Company.maxEmployees := Some 10%Z |} {| store := (); sent := [] |}
  = (Throw BadRangeError, {| store := (); sent := [] |}).
Proof.
  split; [lia|].
  apply (C3_bad_range_rejected empty_db VUndefined 50 10). lia.
Defined.

(** C6.  [Job.findAll] submits one statement, whose text holds the fixed
    predicate [equity > 0] exactly when [hasEquity] is the string
    ["true"]: it is then the last clause, after [WHERE] or [AND].  The
    predicate binds no value and takes no placeholder: the other clauses,
    their numbering and the bound values are the same with and without it.
    For every other [hasEquity] the predicate is left out, and [findAll]
    throws nothing of its own: a throw is a rejection of the store. *)
Theorem C6_hasEquity_literal_true {Store} (db : Executor Store)
    (title : JsVal) (minSalary : option Z) (hasEquity : JsVal) (w : World Store) :
  let filter :=
    {| Job.title := title; Job.minSalary := minSalary; Job.hasEquity := hasEquity |} in
  let asked := bool_decide (hasEquity = VStr "true") in
  let clauses :=
    (if truthy title then ["title ILIKE $1"] else [])
    ++ match minSalary with
       | Some _ => [if truthy title then "salary >= $2" else "salary >= $1"]
       | None => []
       end in
  let bound :=
    (if truthy title then [VStr ("%" +:+ ToString title +:+ "%")] else [])
    ++ match minSalary with Some n => [VNum n] | None => [] end in
  let statement :=
    {| text := (Job.selectSql
                  +:+ where_clause (clauses ++ if asked then ["equity > 0"] else []))
               +:+ " ORDER BY title";
       params := bound |} in
  Job.findAll db filter w = db_query db statement w
  ∧ sent (Job.findAll db filter w).2 = sent w ++ [statement]
  ∧ occurs "equity > 0" (text statement) = asked
  ∧ ∀ e, (Job.findAll db filter w).1 = Throw e →
         ∃ rejection, e = StoreFailure rejection
                      ∧ (db statement (store w)).1 = inl rejection.
Proof.
  intros filter asked clauses bound statement.
  assert (Hq : Job.assemble (Job.filterClauses filter) = statement).
  { subst statement clauses bound asked filter.
    unfold Job.assemble, Job.filterClauses, strict_eq.
    cbn [Job.title Job.minSalary Job.hasEquity].
    by destruct (truthy title), minSalary,
      (bool_decide (hasEquity = VStr "true")). }
  rewrite Job_findAll_unfold, Hq.
  split; [reflexivity|]. split; [apply db_query_sent|]. split.
  - subst statement clauses asked. cbn [text].
    by destruct (truthy title), minSalary,
      (bool_decide (hasEquity = VStr "true")); vm_compute.
  - intros e He. rewrite db_query_fst in He.
    destruct (db statement (store w)).1 as [rejection|rows]; [|discriminate He].
    injection He as <-. by exists rejection.
Qed.

Example hasEquity_other_values :
  Job.filterClauses {| Job.title := VUndefined; Job.minSalary := None; Job.hasEquity := VStr "true" |}
    = (["equity > 0"], [])
  ∧ Job.filterClauses {| Job.title := VUndefined; Job.minSalary := None; Job.hasEquity := VBool true |}
    = ([], [])
  ∧ Job.filterClauses {| Job.title := VUndefined; Job.minSalary := None; Job.hasEquity := VStr "false" |}
    = ([], [])
  ∧ Job.filterClauses {| Job.title := VUndefined; Job.minSalary := None; Job.hasEquity := VStr "yes" |}
    = ([], [])
  ∧ Job.filterClauses {| Job.title := VStr "1"; Job.minSalary := Some 5%Z; Job.hasEquity := VStr "true" |}
    = (["title ILIKE $1"; "salary >= $2"; "equity > 0"], [VStr "%1%"; VNum 5]).
Proof. repeat split. Qed.

(** C7 (as amended).  A lower bound equal to 0 is present, not absent.
    [Job.findAll] always, and [Company.findAll] whenever the range check
    passes (the upper bound is absent or not negative), submits one
    statement with the [>=] clause numbered with the next placeholder slot
    ($2 after a name or title pattern, $1 otherwise) and with the value 0
    bound in that slot. *)
Theorem C7_zero_lower_bound_present {Store} (db : Executor Store)
    (name : JsVal) (maxEmployees : option Z) (title hasEquity : JsVal)
    (w : World Store) :
  let job_statement :=
    {| text :=
         (Job.selectSql
            +:+ where_clause
                  ((if truthy title then ["title ILIKE $1"; "salary >= $2"]
                    else ["salary >= $1"])
                   ++ if bool_decide (hasEquity = VStr "true") then ["equity > 0"] else []))
         +:+ " ORDER BY title";
       params :=
         (if truthy title then [VStr ("%" +:+ ToString title +:+ "%")] else [])
         ++ [VNum 0] |} in
  let company_statement :=
    {| text :=
         (Company.selectSql
            +:+ where_clause
                  ((if truthy name then ["name ILIKE $1"; "num_employees >= $2"]
                    else ["num_employees >= $1"])
                   ++ match maxEmployees with
                      | Some _ => [if truthy name then "num_employees <= $3"
                                   else "num_employees <= $2"]
                      | None => []
                      end))
         +:+ " ORDER BY name";
       params :=
         (if truthy name then [VStr ("%" +:+ ToString name +:+ "%")] else [])
         ++ [VNum 0]
         ++ match maxEmployees with Some upper => [VNum upper] | None => [] end |} in
  (Job.findAll db
     {| Job.title := title; Job.minSalary := Some 0%Z; Job.hasEquity := hasEquity |} w
   = db_query db job_statement w
   ∧ sent (Job.findAll db
             {| Job.title := title; Job.minSalary := Some 0%Z;
                Job.hasEquity := hasEquity |} w).2
     = sent w ++ [job_statement])
  ∧ ((∀ upper, maxEmployees = Some upper → (0 ≤ upper)%Z) →
     Company.findAll db
       {| Company.name := name; Company.minEmployees := Some 0%Z;
          Company.maxEmployees := maxEmployees |} w
     = db_query db company_statement w
     ∧ sent (Company.findAll db
               {| Company.name := name; Company.minEmployees := Some 0%Z;
                  Company.maxEmployees := maxEmployees |} w).2
       = sent w ++ [company_statement]).
Proof.
  intros job_statement company_statement. split.
  - assert (Hq : Job.assemble
                   (Job.filterClauses
                      {| Job.title := title; Job.minSalary := Some 0%Z;
                         Job.hasEquity := hasEquity |}) = job_statement).
    { subst job_statement. unfold Job.assemble, Job.filterClauses, strict_eq.
      cbn [Job.title Job.minSalary Job.hasEquity].
      by destruct (truthy title), (bool_decide (hasEquity = VStr "true")). }
    rewrite Job_findAll_unfold, Hq. split; [reflexivity | apply db_query_sent].
  - intros Hupper.
    assert (Hq : Company.assemble
                   (Company.filterClauses
                      {| Company.name := name; Company.minEmployees := Some 0%Z;
                         Company.maxEmployees := maxEmployees |}) = company_statement).
    { subst company_statement. unfold Company.assemble, Company.filterClauses.
      cbn [Company.name Company.minEmployees Company.maxEmployees].
      by destruct (truthy name), maxEmployees. }
    assert (Hgt : js_gt (Some 0%Z) maxEmployees = false).
    { destruct maxEmployees as [upper|]; [|reflexivity]. simpl.
      apply bool_decide_eq_false_2. specialize (Hupper upper eq_refl). lia. }
    rewrite Company_findAll_unfold. cbn [Company.minEmployees Company.maxEmployees].
    rewrite Hgt, Hq. split; [reflexivity | apply db_query_sent].
Qed.

(** The lower bound 0 with an upper bound 10 and a name. *)
Lemma C7_zero_lower_bound_present_witness :
  let w := {| store := (); sent := [] |} in
  (∀ upper, Some 10%Z = Some upper → (0 ≤ upper)%Z)
  ∧ sent (Company.findAll empty_db
            {| Company.name := VStr "net"; Company.minEmployees := Some 0%Z;
               Company.maxEmployees := Some 10%Z |} w).2
    = [{| text := Company.selectSql
             +:+ " WHERE name ILIKE $1 AND num_employees >= $2 AND num_employees <= $3"
             +:+ " ORDER BY name";
          params := [VStr "%net%"; VNum 0; VNum 10] |}].
Proof.
  intros w.
  assert (H : ∀ upper, Some 10%Z = Some upper → (0 ≤ upper)%Z)
    by (intros upper [= <-]; lia).
  split; [exact H|].
  rewrite (proj2 (proj2 (C7_zero_lower_bound_present empty_db
                           (VStr "net") (Some 10%Z) VUndefined VUndefined w) H)).
  vm_compute. reflexivity.
Defined.

(** C7 as stated fails for the company when the upper bound is negative:
    with a lower bound 0 and an upper bound -1 the range check throws, no
    clause is appended and no value is bound, as nothing is submitted. *)
Lemma C7_negative_upper_counterexample :
  let w := {| store := (); sent := [] |} in
  let filter := {| Company.name := VUndefined; Company.minEmployees := Some 0%Z;
                   Company.maxEmployees := Some (-1)%Z |} in
  Company.findAll empty_db filter w = (Throw BadRangeError, w)
  ∧ sent (Company.findAll empty_db filter w).2 = []
  ∧ ¬ ∃ statement,
        sent (Company.findAll empty_db filter w).2 = [statement]
        ∧ VNum 0 ∈ params statement.
Proof.
  intros w filter. split; [reflexivity|]. split; [reflexivity|].
  intros (statement & Hsent & _). discriminate Hsent.
Qed.

(** ** Assembly of the [WHERE] clause *)

Lemma join_and_chain (first : string) (rest : list string) :
  join " AND " (first :: rest) = first +:+ and_chain rest.
Proof.
  revert first. induction rest as [|clause rest IH]; intros first.
  - simpl. by rewrite append_empty_r.
  - change (join " AND " (first :: clause :: rest))
      with (first +:+ " AND " +:+ join " AND " (clause :: rest)).
    by rewrite IH.
Qed.




Example company_three_clauses :
  Company.assemble
    (Company.filterClauses
       {| Company.name := VStr "net"; Company.minEmployees := Some 1%Z;
          Company.maxEmployees := Some 5%Z |})
  = {| text := Company.selectSql
         +:+ " WHERE name ILIKE $1 AND num_employees >= $2 AND num_employees <= $3"
         +:+ " ORDER BY name";
       params := [VStr "%net%"; VNum 1; VNum 5] |}.
Proof. vm_compute. reflexivity. Qed.

(** C10.  An empty-string [name] (company) or [title] (job) is an absent
    filter: the clauses, and [findAll] as a whole, are those of the filter
    without it, no [ILIKE] clause is built and no pattern is bound; a lower
    bound of 0, in contrast, is present. *)
Theorem C10_empty_string_is_absent {Store} (db : Executor Store) (w : World Store)
    (minEmployees maxEmployees minSalary : option Z) (hasEquity : JsVal) :
  let company name :=
    {| Company.name := name; Company.minEmployees := minEmployees;
       Company.maxEmployees := maxEmployees |} in
  let job title :=
    {| Job.title := title; Job.minSalary := minSalary; Job.hasEquity := hasEquity |} in
  (Company.filterClauses (company (VStr "")) = Company.filterClauses (company VUndefined)
   ∧ Company.findAll db (company (VStr "")) w = Company.findAll db (company VUndefined) w
   ∧ (∀ k, "name ILIKE " +:+ placeholder k ∉ (Company.filterClauses (company (VStr ""))).1)
   ∧ (∀ pattern, VStr pattern ∉ (Company.filterClauses (company (VStr ""))).2))
  ∧
  (Job.filterClauses (job (VStr "")) = Job.filterClauses (job VUndefined)
   ∧ Job.findAll db (job (VStr "")) w = Job.findAll db (job VUndefined) w
   ∧ (∀ k, "title ILIKE " +:+ placeholder k ∉ (Job.filterClauses (job (VStr ""))).1)
   ∧ (∀ pattern, VStr pattern ∉ (Job.filterClauses (job (VStr ""))).2))
  ∧
  (Company.filterClauses
     {| Company.name := VStr ""; Company.minEmployees := Some 0%Z;
        Company.maxEmployees := None |} = (["num_employees >= $1"], [VNum 0])
   ∧ Job.filterClauses
       {| Job.title := VStr ""; Job.minSalary := Some 0%Z; Job.hasEquity := VUndefined |}
     = (["salary >= $1"], [VNum 0])).
Proof.
  intros company job. split; [|split].
  - split; [reflexivity|]. split; [reflexivity|]. split.
    + intros k. subst company. unfold Company.filterClauses. simpl.
      destruct minEmployees, maxEmployees; simpl;
        rewrite ?not_elem_of_cons; repeat split;
        try apply not_elem_of_nil; strings_differ.
    + intros pattern. subst company. unfold Company.filterClauses. simpl.
      destruct minEmployees, maxEmployees; simpl;
        rewrite ?not_elem_of_cons; repeat split;
        try apply not_elem_of_nil; discriminate.
  - split; [reflexivity|]. split; [reflexivity|]. split.
    + intros k. subst job. unfold Job.filterClauses. simpl.
      destruct minSalary, (strict_eq hasEquity (VStr "true")); simpl;
        rewrite ?not_elem_of_cons; repeat split;
        try apply not_elem_of_nil; strings_differ.
    + intros pattern. subst job. unfold Job.filterClauses. simpl.
      destruct minSalary, (strict_eq hasEquity (VStr "true")); simpl;
        rewrite ?not_elem_of_cons; repeat split;
        try apply not_elem_of_nil; discriminate.
  - split; reflexivity.
Qed.

(** ** [update]: the row identifier *)

Lemma Company_update_sent {Store} (db : Executor Store) (id : JsVal) (data : JsObject) w :
  data ≠ [] →
  sent (Company.update db id data w).2 = sent w ++ [company_update id data].
Proof.
  intros Hne. unfold Company.update, mbind, Async_bind, lift, company_update.
  rewrite (sqlForPartialUpdate_nonempty _ _ Hne). cbn [setCols values].
  rewrite length_fmap, Object_entries_length. fold (placeholder (length data + 1)).
  match goal with |- context [db_query db ?q w] =>
    pose proof (db_query_sent db q w) as Hsent;
    destruct (db_query db q w) as [[rows|e] w'] end; simpl in *; [|done].
  by destruct (rows !! 0).
Qed.

Lemma Job_update_sent {Store} (db : Executor Store) (id : JsVal) (data : JsObject) w :
  data ≠ [] →
  sent (Job.update db id data w).2 = sent w ++ [job_update id data].
Proof.
  intros Hne. unfold Job.update, mbind, Async_bind, lift, job_update.
  rewrite (sqlForPartialUpdate_nonempty _ _ Hne). cbn [setCols values].
  rewrite length_fmap, Object_entries_length. fold (placeholder (length data + 1)).
  match goal with |- context [db_query db ?q w] =>
    pose proof (db_query_sent db q w) as Hsent;
    destruct (db_query db q w) as [[rows|e] w'] end; simpl in *; [|done].
  by destruct (rows !! 0).
Qed.

(** C9.  With N entries of data, [update] submits one statement.  Its text
    is the fixed [UPDATE] text with the N tokens, numbered $1..$N, after
    [SET] and the placeholder $(N+1) after [WHERE handle =] (or
    [WHERE id =]); its values are the N values of the data followed by the
    identifier, at index N, the slot of $(N+1).  The text is the same for
    every identifier: the identifier is bound, never spliced into it. *)
Theorem C9_update_appends_identifier {Store} (db : Executor Store) (data : JsObject) :
  data ≠ [] →
  ∃ companyTokens jobTokens : list string,
    (∀ i field v,
       Object_entries data !! i = Some (field, v) →
       companyTokens !! i = Some (set_token (column_of Company.jsToSql field) (i + 1))
       ∧ jobTokens !! i = Some (set_token (column_of Job.jsToSql field) (i + 1)))
    ∧ length companyTokens = length data
    ∧ length jobTokens = length data
    ∧ ∀ (id : JsVal) (w : World Store),
        sent (Company.update db id data w).2
          = sent w ++
            [{| text :=
             "UPDATE companies " +:+ nl +:+
             "                      SET " +:+ join ", " companyTokens +:+ " " +:+ nl +:+
             "                      WHERE handle = " +:+ placeholder (length data + 1) +:+ " " +:+ nl +:+
             "                      RETURNING handle, " +:+ nl +:+
             "                                name, " +:+ nl +:+
             "                                description, " +:+ nl +:+
             "                                num_employees AS " +:+ dq +:+ "numEmployees" +:+ dq +:+ ", " +:+ nl +:+
             "                                logo_url AS " +:+ dq +:+ "logoUrl" +:+ dq;
                params := (Object_entries data).*2 ++ [id] |}]
        ∧ sent (Job.update db id data w).2
          = sent w ++
            [{| text :=
             "UPDATE jobs " +:+ nl +:+
             "                    SET " +:+ join ", " jobTokens +:+ " " +:+ nl +:+
             "                    WHERE id = " +:+ placeholder (length data + 1) +:+ " " +:+ nl +:+
             "                    RETURNING id, " +:+ nl +:+
             "                            title, " +:+ nl +:+
             "                            salary, " +:+ nl +:+
             "                            equity, " +:+ nl +:+
             "                            company_handle AS " +:+ dq +:+ "companyHandle" +:+ dq;
                params := (Object_entries data).*2 ++ [id] |}]
        ∧ ((Object_entries data).*2 ++ [id]) !! length data = Some id
        ∧ length ((Object_entries data).*2 ++ [id]) = length data + 1.
Proof.
  intros Hne.
  exists (set_tokens Company.jsToSql data), (set_tokens Job.jsToSql data).
  split; [|split; [apply set_tokens_length|split; [apply set_tokens_length|]]].
  - intros i field v Hi. split; by eapply set_tokens_lookup.
  - intros id w. split; [by apply Company_update_sent|].
    split; [by apply Job_update_sent|]. split.
    + rewrite lookup_app_r by (rewrite length_fmap, Object_entries_length; lia).
      rewrite length_fmap, Object_entries_length, Nat.sub_diag. reflexivity.
    + rewrite length_app, length_fmap, Object_entries_length. reflexivity.
Qed.

Lemma C9_update_appends_identifier_witness :
  let data := [("name", VStr "New"); ("numEmployees", VNum 10)] in
  data ≠ [] ∧
  sent (Company.update empty_db (VStr "c1") data {| store := (); sent := [] |}).2
  = [{| text :=
             "UPDATE companies " +:+ nl +:+
             "                      SET " +:+ (dq +:+ "name" +:+ dq +:+ "=$1, " +:+ dq +:+ "num_employees" +:+ dq +:+ "=$2") +:+ " " +:+ nl +:+
             "                      WHERE handle = " +:+ "$3" +:+ " " +:+ nl +:+
             "                      RETURNING handle, " +:+ nl +:+
             "                                name, " +:+ nl +:+
             "                                description, " +:+ nl +:+
             "                                num_employees AS " +:+ dq +:+ "numEmployees" +:+ dq +:+ ", " +:+ nl +:+
             "                                logo_url AS " +:+ dq +:+ "logoUrl" +:+ dq;
        params := [VStr "New"; VNum 10; VStr "c1"] |}].
Proof.
  intros data. split; [discriminate|].
  destruct (C9_update_appends_identifier empty_db data) as
    (companyTokens & jobTokens & Htok & Hlen & _ & Hsent); [discriminate|].
  destruct (Hsent (VStr "c1") {| store := (); sent := [] |}) as (-> & _).
  destruct companyTokens as [|t1 [|t2 [|t3 rest]]]; try discriminate Hlen.
  destruct (Htok 0 "name" (VStr "New") eq_refl) as [H0 _].
  destruct (Htok 1 "numEmployees" (VNum 10) eq_refl) as [H1 _].
  simpl in H0, H1. injection H0 as ->. injection H1 as ->.
  vm_compute. reflexivity.
Defined.

(** ** Values never reach the SQL text *)

Lemma Company_clause_text (f g : Company.Filter) :
  truthy (Company.name f) = truthy (Company.name g) →
  defined (Company.minEmployees f) = defined (Company.minEmployees g) →
  defined (Company.maxEmployees f) = defined (Company.maxEmployees g) →
  (Company.filterClauses f).1 = (Company.filterClauses g).1.
Proof.
  unfold Company.filterClauses. intros -> -> ->.
  by destruct (truthy (Company.name g)), (defined (Company.minEmployees g)),
    (defined (Company.maxEmployees g)).
Qed.

Lemma Job_clause_text (f g : Job.Filter) :
  job_same_presence f g → (Job.filterClauses f).1 = (Job.filterClauses g).1.
Proof.
  unfold Job.filterClauses. intros (-> & -> & ->).
  by destruct (truthy (Job.title g)), (defined (Job.minSalary g)),
    (strict_eq (Job.hasEquity g) (VStr "true")).
Qed.

Lemma Company_assemble_text (c1 c2 : list string * list JsVal) :
  c1.1 = c2.1 → text (Company.assemble c1) = text (Company.assemble c2).
Proof. destruct c1, c2. simpl. by intros ->. Qed.

Lemma Job_assemble_text (c1 c2 : list string * list JsVal) :
  c1.1 = c2.1 → text (Job.assemble c1) = text (Job.assemble c2).
Proof. destruct c1, c2. simpl. by intros ->. Qed.

(** C2 (as amended).  The text of [compileSet] depends on the field names
    and the table only; the text that [findAll] submits depends only on
    which members are present (truthiness of [name]/[title], definedness of
    the bounds), on whether [hasEquity] is the string ["true"], and on the
    outcome of the range check: with these equal, the submitted SQL texts
    are identical whatever the values are. *)
Theorem C2_text_independent_of_values {Store} (db : Executor Store) (w : World Store)
    (d1 d2 : JsObject) (jsToSql : gmap string string)
    (cf cg : Company.Filter) (jf jg : Job.Filter) :
  d1.*1 = d2.*1 →
  company_same_presence cf cg →
  job_same_presence jf jg →
  outcome_map setCols (sqlForPartialUpdate d1 jsToSql)
    = outcome_map setCols (sqlForPartialUpdate d2 jsToSql)
  ∧ text (Company.assemble (Company.filterClauses cf))
    = text (Company.assemble (Company.filterClauses cg))
  ∧ text <$> sent (Company.findAll db cf w).2 = text <$> sent (Company.findAll db cg w).2
  ∧ text (Job.assemble (Job.filterClauses jf)) = text (Job.assemble (Job.filterClauses jg))
  ∧ text <$> sent (Job.findAll db jf w).2 = text <$> sent (Job.findAll db jg w).2.
Proof.
  intros Hkeys (Hn & Hmin & Hmax & Hgt) Hjob.
  assert (Hc : text (Company.assemble (Company.filterClauses cf))
               = text (Company.assemble (Company.filterClauses cg)))
    by by apply Company_assemble_text, Company_clause_text.
  assert (Hj : text (Job.assemble (Job.filterClauses jf))
               = text (Job.assemble (Job.filterClauses jg)))
    by by apply Job_assemble_text, Job_clause_text.
  split; [|split; [exact Hc|split; [|split; [exact Hj|]]]].
  - unfold sqlForPartialUpdate. rewrite (Object_keys_of_keys _ _ Hkeys).
    by case_bool_decide.
  - rewrite !Company_findAll_unfold, Hgt.
    destruct (js_gt (Company.minEmployees cg) (Company.maxEmployees cg));
      [reflexivity|].
    rewrite !db_query_sent, !fmap_app. cbn [fmap list_fmap]. by rewrite Hc.
  - rewrite !Job_findAll_unfold.
    rewrite !db_query_sent, !fmap_app. cbn [fmap list_fmap]. by rewrite Hj.
Qed.

Lemma C2_text_independent_of_values_witness :
  let w := {| store := (); sent := [] |} in
  let d1 := [("firstName", VStr "user")] in
  let d2 := [("firstName", VStr "'; DROP TABLE users; --")] in
  let cf := {| Company.name := VStr "net"; Company.minEmployees := Some 1%Z;
               Company.maxEmployees := None |} in
  let cg := {| Company.name := VStr "%"; Company.minEmployees := Some 7%Z;
               Company.maxEmployees := None |} in
  let jf := {| Job.title := VStr "1"; Job.minSalary := None; Job.hasEquity := VStr "true" |} in
  let jg := {| Job.title := VStr "x"; Job.minSalary := None; Job.hasEquity := VStr "true" |} in
  d1.*1 = d2.*1 ∧ company_same_presence cf cg ∧ job_same_presence jf jg
  ∧ text <$> sent (Company.findAll empty_db cf w).2
    = text <$> sent (Company.findAll empty_db cg w).2.
Proof.
  intros w d1 d2 cf cg jf jg.
  assert (H1 : d1.*1 = d2.*1) by reflexivity.
  assert (H2 : company_same_presence cf cg) by (repeat split).
  assert (H3 : job_same_presence jf jg) by (repeat split).
  split; [exact H1|]. split; [exact H2|]. split; [exact H3|].
  exact (proj1 (proj2 (proj2
    (C2_text_independent_of_values empty_db w d1 d2 ∅ cf cg jf jg H1 H2 H3)))).
Defined.

(** C2 as stated fails for the filters: two filters that supply the same
    field, [name] (or [title]), with different values get different SQL
    text when one of the values is the empty string. *)
Lemma C2_presence_counterexample :
  let w := {| store := (); sent := [] |} in
  let cf := {| Company.name := VStr ""; Company.minEmployees := None;
               Company.maxEmployees := None |} in
  let cg := {| Company.name := VStr "a"; Company.minEmployees := None;
               Company.maxEmployees := None |} in
  let jf := {| Job.title := VStr ""; Job.minSalary := None; Job.hasEquity := VStr "true" |} in
  let jg := {| Job.title := VStr "a"; Job.minSalary := None; Job.hasEquity := VStr "true" |} in
  company_same_fields cf cg ∧ job_same_fields jf jg
  ∧ text <$> sent (Company.findAll empty_db cf w).2
    ≠ text <$> sent (Company.findAll empty_db cg w).2
  ∧ text <$> sent (Job.findAll empty_db jf w).2
    ≠ text <$> sent (Job.findAll empty_db jg w).2.
Proof.
  intros w cf cg jf jg.
  split. { repeat split; intros H; discriminate H. }
  split. { repeat split; intros H; discriminate H. }
  split; vm_compute; discriminate.
Qed.

(** ** [create]: duplicates and store failures *)

Lemma is_DuplicateError_StoreFailure (e : DbError) : ¬ is_DuplicateError (StoreFailure e).
Proof. intros [what H]. discriminate H. Qed.

(** The pre-check path: a row found by the existence lookup makes
    [create] throw the duplicate [BadRequestError] after that one round
    trip. *)
Lemma Company_create_duplicate {Store} (db : Executor Store)
    (handle name description numEmployees logoUrl : JsVal) (w : World Store) row rows s :
  db (company_check handle) (store w) = (inr (row :: rows), s) →
  Company.create db handle name description numEmployees logoUrl w
  = (Throw (BadRequestError ("Duplicate company: " +:+ ToString handle)),
     {| store := s; sent := sent w ++ [company_check handle] |}).
Proof.
  intros Hcheck. unfold Company.create, mbind, Async_bind, db_query.
  fold (company_check handle). by rewrite Hcheck.
Qed.

Lemma Job_create_duplicate {Store} (db : Executor Store)
    (id title salary equity companyHandle : JsVal) (w : World Store) row rows s :
  db (job_check id) (store w) = (inr (row :: rows), s) →
  Job.create db id title salary equity companyHandle w
  = (Throw (BadRequestError ("Duplicate job: " +:+ ToString title)),
     {| store := s; sent := sent w ++ [job_check id] |}).
Proof.
  intros Hcheck. unfold Job.create, mbind, Async_bind, db_query.
  fold (job_check id). by rewrite Hcheck.
Qed.




(** * Further properties of the repository operations *)

(** ** [get], [remove], [update]: the first row or [NotFoundError] *)

(** The shape shared by [get], [remove] and [update]: one round trip, then
    the first row of the answer or the given error. *)
Lemma first_row_or_throw {Store A} (db : Executor Store) (q : Query)
    (found : Row → A) (missing : Thrown) (w : World Store) :
  (rows ← db_query db q;
   match rows !! 0 with
   | Some row => mret (found row)
   | None => throw missing
   end) w
  = (match (db q (store w)).1 with
     | inl e => Throw (StoreFailure e)
     | inr [] => Throw missing
     | inr (row :: _) => Return (found row)
     end, after db q w).
Proof.
  unfold mbind, Async_bind, db_query, after.
  destruct (db q (store w)) as [[e|[|row rows]] s]; reflexivity.
Qed.

(** X1.  [get] makes exactly one round trip, with the fixed [SELECT] and
    the identifier as its only bound value.  It returns the first row of
    the answer, throws [NotFoundError] naming the identifier when the
    answer has no row, and throws a rejection of the store as it is. *)
Theorem X1_get_first_row_or_not_found {Store} (db : Executor Store)
    (handle id : JsVal) (w : World Store) :
  let company_statement :=
    {| text :=
         "SELECT handle," +:+ nl +:+
         "                  name," +:+ nl +:+
         "                  description," +:+ nl +:+
         "                  num_employees AS " +:+ dq +:+ "numEmployees" +:+ dq +:+ "," +:+ nl +:+
         "                  logo_url AS " +:+ dq +:+ "logoUrl" +:+ dq +:+ nl +:+
         "           FROM companies" +:+ nl +:+
         "           WHERE handle = $1";
       params := [handle] |} in
  let job_statement :=
    {| text :=
         "SELECT id, title, salary, equity, company_handle AS " +:+ dq +:+ "companyHandle" +:+ dq +:+ nl +:+
         "        FROM jobs" +:+ nl +:+
         "        WHERE id = $1";
       params := [id] |} in
  Company.get db handle w
  = (match (db company_statement (store w)).1 with
     | inl e => Throw (StoreFailure e)
     | inr [] => Throw (NotFoundError ("No company: " +:+ ToString handle))
     | inr (company :: _) => Return company
     end, after db company_statement w)
  ∧ Job.get db id w
    = (match (db job_statement (store w)).1 with
       | inl e => Throw (StoreFailure e)
       | inr [] => Throw (NotFoundError ("No job: " +:+ ToString id))
       | inr (job :: _) => Return job
       end, after db job_statement w).
Proof.
  split.
  - apply (first_row_or_throw db (company_get handle) (λ row, row)).
  - apply (first_row_or_throw db (job_get id) (λ row, row)).
Qed.

(** X2.  [remove] makes exactly one round trip, with the fixed [DELETE]
    and the identifier as its only bound value.  It returns [undefined]
    when the answer has a row, throws [NotFoundError] naming the identifier
    when it has none, and throws a rejection of the store as it is. *)
Theorem X2_remove_or_not_found {Store} (db : Executor Store)
    (handle id : JsVal) (w : World Store) :
  let company_statement :=
    {| text :=
         "DELETE" +:+ nl +:+
         "           FROM companies" +:+ nl +:+
         "           WHERE handle = $1" +:+ nl +:+
         "           RETURNING handle";
       params := [handle] |} in
  let job_statement :=
    {| text :=
         "DELETE" +:+ nl +:+
         "        FROM jobs" +:+ nl +:+
         "        WHERE id = $1" +:+ nl +:+
         "        RETURNING id";
       params := [id] |} in
  Company.remove db handle w
  = (match (db company_statement (store w)).1 with
     | inl e => Throw (StoreFailure e)
     | inr [] => Throw (NotFoundError ("No company: " +:+ ToString handle))
     | inr (_ :: _) => Return ()
     end, after db company_statement w)
  ∧ Job.remove db id w
    = (match (db job_statement (store w)).1 with
       | inl e => Throw (StoreFailure e)
       | inr [] => Throw (NotFoundError ("No job: " +:+ ToString id))
       | inr (_ :: _) => Return ()
       end, after db job_statement w).
Proof.
  split.
  - change (Company.remove db handle w
            = (match (db (company_remove handle) (store w)).1 with
               | inl e => Throw (StoreFailure e)
               | inr [] => Throw (NotFoundError ("No company: " +:+ ToString handle))
               | inr (_ :: _) => Return ()
               end, after db (company_remove handle) w)).
    unfold Company.remove. fold (company_remove handle).
    rewrite <- (first_row_or_throw db (company_remove handle) (λ _, ())).
    unfold mbind, Async_bind.
    destruct (db_query db (company_remove handle) w) as [[rows|e] w']; [|done].
    by destruct (rows !! 0).
  - change (Job.remove db id w
            = (match (db (job_remove id) (store w)).1 with
               | inl e => Throw (StoreFailure e)
               | inr [] => Throw (NotFoundError ("No job: " +:+ ToString id))
               | inr (_ :: _) => Return ()
               end, after db (job_remove id) w)).
    unfold Job.remove. fold (job_remove id).
    rewrite <- (first_row_or_throw db (job_remove id) (λ _, ())).
    unfold mbind, Async_bind.
    destruct (db_query db (job_remove id) w) as [[rows|e] w']; [|done].
    by destruct (rows !! 0).
Qed.

Lemma Company_update_nonempty {Store} (db : Executor Store) (handle : JsVal)
    (data : JsObject) (w : World Store) :
  data ≠ [] →
  Company.update db handle data w
  = (match (db (company_update handle data) (store w)).1 with
     | inl e => Throw (StoreFailure e)
     | inr [] => Throw (NotFoundError ("No company: " +:+ ToString handle))
     | inr (company :: _) => Return company
     end, after db (company_update handle data) w).
Proof.
  intros Hne.
  rewrite <- (first_row_or_throw db (company_update handle data) (λ row, row)).
  unfold Company.update, mbind at 1, Async_bind at 1, lift.
  rewrite (sqlForPartialUpdate_nonempty _ _ Hne). cbn [setCols values].
  rewrite length_fmap, Object_entries_length. reflexivity.
Qed.

Lemma Job_update_nonempty {Store} (db : Executor Store) (id : JsVal)
    (data : JsObject) (w : World Store) :
  data ≠ [] →
  Job.update db id data w
  = (match (db (job_update id data) (store w)).1 with
     | inl e => Throw (StoreFailure e)
     | inr [] => Throw (NotFoundError ("No job: " +:+ ToString id))
     | inr (job :: _) => Return job
     end, after db (job_update id data) w).
Proof.
  intros Hne.
  rewrite <- (first_row_or_throw db (job_update id data) (λ row, row)).
  unfold Job.update, mbind at 1, Async_bind at 1, lift.
  rewrite (sqlForPartialUpdate_nonempty _ _ Hne). cbn [setCols values].
  rewrite length_fmap, Object_entries_length. reflexivity.
Qed.

(** X3.  With non-empty data, [update] makes exactly one round trip: it
    submits one statement, whose values end with the identifier, and
    returns the first row of the answer to it; when the answer has no row
    (no row has that identifier) it throws [NotFoundError] naming the
    identifier; a rejection of the store is thrown as it is. *)
Theorem X3_update_first_row_or_not_found {Store} (db : Executor Store)
    (handle id : JsVal) (data : JsObject) (w : World Store) :
  data ≠ [] →
  ∃ company_statement job_statement,
    params company_statement = (Object_entries data).*2 ++ [handle]
    ∧ params job_statement = (Object_entries data).*2 ++ [id]
    ∧ sent (Company.update db handle data w).2 = sent w ++ [company_statement]
    ∧ sent (Job.update db id data w).2 = sent w ++ [job_statement]
    ∧ Company.update db handle data w
      = (match (db company_statement (store w)).1 with
         | inl e => Throw (StoreFailure e)
         | inr [] => Throw (NotFoundError ("No company: " +:+ ToString handle))
         | inr (company :: _) => Return company
         end, after db company_statement w)
    ∧ Job.update db id data w
      = (match (db job_statement (store w)).1 with
         | inl e => Throw (StoreFailure e)
         | inr [] => Throw (NotFoundError ("No job: " +:+ ToString id))
         | inr (job :: _) => Return job
         end, after db job_statement w).
Proof.
  intros Hne. exists (company_update handle data), (job_update id data).
  split; [reflexivity|]. split; [reflexivity|].
  split; [by apply Company_update_sent|]. split; [by apply Job_update_sent|].
  split.
  - by apply Company_update_nonempty.
  - by apply Job_update_nonempty.
Qed.

(** An update of a company that the store does not hold. *)
Lemma X3_update_first_row_or_not_found_witness :
  let w := {| store := (); sent := [] |} in
  let data := [("name", VStr "New")] in
  data ≠ [] ∧
  (Company.update empty_db (VStr "nope") data w).1
  = Throw (NotFoundError "No company: nope").
Proof.
  intros w data. split; [discriminate|].
  destruct (X3_update_first_row_or_not_found empty_db (VStr "nope") VNull data w)
    as (cq & jq & _ & _ & _ & _ & -> & _); [discriminate|].
  reflexivity.
Defined.

(** X4.  With empty data, [update] throws the [BadRequestError] of the
    partial-update compiler and leaves the world untouched: no statement
    is submitted, whatever the identifier. *)
Theorem X4_update_empty_data {Store} (db : Executor Store)
    (handle id : JsVal) (w : World Store) :
  Company.update db handle [] w = (Throw NoUpdateDataError, w)
  ∧ Job.update db id [] w = (Throw NoUpdateDataError, w).
Proof. split; reflexivity. Qed.

(** ** [create]: lookup, then insert *)

Lemma Company_create_unfold {Store} (db : Executor Store)
    (handle name description numEmployees logoUrl : JsVal) (w : World Store) :
  let check := company_check handle in
  let insert := company_insert handle name description numEmployees logoUrl in
  Company.create db handle name description numEmployees logoUrl w
  = match (db check (store w)).1 with
    | inl e => (Throw (StoreFailure e), after db check w)
    | inr (_ :: _) =>
        (Throw (BadRequestError ("Duplicate company: " +:+ ToString handle)),
         after db check w)
    | inr [] =>
        (match (db insert (store (after db check w))).1 with
         | inl e => Throw (StoreFailure e)
         | inr rows => Return (rows !! 0)
         end, after db insert (after db check w))
    end.
Proof.
  intros check insert. subst check insert.
  unfold Company.create, mbind, Async_bind, db_query, after,
    company_check, company_insert, throw, mret, Async_ret.
  destruct (db _ (store w)) as [[e|[|row rows]] s]; simpl; try reflexivity.
  by destruct (db _ s) as [[e2|rows2] s2].
Qed.

Lemma Job_create_unfold {Store} (db : Executor Store)
    (id title salary equity companyHandle : JsVal) (w : World Store) :
  let check := job_check id in
  let insert := job_insert id title salary equity companyHandle in
  Job.create db id title salary equity companyHandle w
  = match (db check (store w)).1 with
    | inl e => (Throw (StoreFailure e), after db check w)
    | inr (_ :: _) =>
        (Throw (BadRequestError ("Duplicate job: " +:+ ToString title)),
         after db check w)
    | inr [] =>
        (match (db insert (store (after db check w))).1 with
         | inl e => Throw (StoreFailure e)
         | inr rows => Return (rows !! 0)
         end, after db insert (after db check w))
    end.
Proof.
  intros check insert. subst check insert.
  unfold Job.create, mbind, Async_bind, db_query, after,
    job_check, job_insert, throw, mret, Async_ret.
  destruct (db _ (store w)) as [[e|[|row rows]] s]; simpl; try reflexivity.
  by destruct (db _ s) as [[e2|rows2] s2].
Qed.

(** X5.  [create] always submits the existence lookup first, and submits
    the insert after it exactly when the lookup answered with no row: when
    the lookup finds a row or is rejected, nothing is inserted. *)
Theorem X5_create_inserts_only_after_empty_lookup {Store} (db : Executor Store)
    (handle name description numEmployees logoUrl : JsVal)
    (id title salary equity companyHandle : JsVal) (w : World Store) :
  sent (Company.create db handle name description numEmployees logoUrl w).2
  = sent w ++ company_check handle
      :: match (db (company_check handle) (store w)).1 with
         | inr [] => [company_insert handle name description numEmployees logoUrl]
         | _ => []
         end
  ∧ sent (Job.create db id title salary equity companyHandle w).2
    = sent w ++ job_check id
        :: match (db (job_check id) (store w)).1 with
           | inr [] => [job_insert id title salary equity companyHandle]
           | _ => []
           end.
Proof.
  split.
  - rewrite Company_create_unfold.
    destruct (db (company_check handle) (store w)).1 as [e|[|row rows]] eqn:Hc;
      simpl; [reflexivity| |reflexivity].
    by rewrite <- app_assoc.
  - rewrite Job_create_unfold.
    destruct (db (job_check id) (store w)).1 as [e|[|row rows]] eqn:Hc;
      simpl; [reflexivity| |reflexivity].
    by rewrite <- app_assoc.
Qed.

Lemma Company_duplicate_iff {Store} (db : Executor Store)
    (handle name description numEmployees logoUrl : JsVal) (w : World Store) :
  ((∃ e, (Company.create db handle name description numEmployees logoUrl w).1 = Throw e
         ∧ is_DuplicateError e)
   ↔ ∃ row rows, (db (company_check handle) (store w)).1 = inr (row :: rows))
  ∧ (∀ e, (Company.create db handle name description numEmployees logoUrl w).1 = Throw e →
          is_DuplicateError e →
          e = BadRequestError ("Duplicate company: " +:+ ToString handle)).
Proof.
  rewrite Company_create_unfold. cbv zeta.
  destruct (db (company_check handle) (store w)).1 as [e0|[|row rows]]; simpl.
  - split; [split|].
    + intros (e & [= <-] & Hd). by apply is_DuplicateError_StoreFailure in Hd.
    + intros (? & ? & ?). discriminate.
    + intros e [= <-] Hd. by apply is_DuplicateError_StoreFailure in Hd.
  - destruct (db _ _).1 as [e1|rows1]; (split; [split|]).
    + intros (e & [= <-] & Hd). by apply is_DuplicateError_StoreFailure in Hd.
    + intros (? & ? & ?). discriminate.
    + intros e [= <-] Hd. by apply is_DuplicateError_StoreFailure in Hd.
    + intros (e & ? & _). discriminate.
    + intros (? & ? & ?). discriminate.
    + intros e ?. discriminate.
  - split; [split|].
    + intros _. by exists row, rows.
    + intros _. eexists. split; [reflexivity|]. by eexists.
    + by intros e [= <-] _.
Qed.

Lemma Job_duplicate_iff {Store} (db : Executor Store)
    (id title salary equity companyHandle : JsVal) (w : World Store) :
  ((∃ e, (Job.create db id title salary equity companyHandle w).1 = Throw e
         ∧ is_DuplicateError e)
   ↔ ∃ row rows, (db (job_check id) (store w)).1 = inr (row :: rows))
  ∧ (∀ e, (Job.create db id title salary equity companyHandle w).1 = Throw e →
          is_DuplicateError e →
          e = BadRequestError ("Duplicate job: " +:+ ToString title)).
Proof.
  rewrite Job_create_unfold. cbv zeta.
  destruct (db (job_check id) (store w)).1 as [e0|[|row rows]]; simpl.
  - split; [split|].
    + intros (e & [= <-] & Hd). by apply is_DuplicateError_StoreFailure in Hd.
    + intros (? & ? & ?). discriminate.
    + intros e [= <-] Hd. by apply is_DuplicateError_StoreFailure in Hd.
  - destruct (db _ _).1 as [e1|rows1]; (split; [split|]).
    + intros (e & [= <-] & Hd). by apply is_DuplicateError_StoreFailure in Hd.
    + intros (? & ? & ?). discriminate.
    + intros e [= <-] Hd. by apply is_DuplicateError_StoreFailure in Hd.
    + intros (e & ? & _). discriminate.
    + intros (? & ? & ?). discriminate.
    + intros e ?. discriminate.
  - split; [split|].
    + intros _. by exists row, rows.
    + intros _. eexists. split; [reflexivity|]. by eexists.
    + by intros e [= <-] _.
Qed.

(** X6.  [create] throws its duplicate [BadRequestError] if and only if
    the existence lookup answers with at least one row.  The company's
    message names the handle; the job's message names the title, not the
    id that was looked up. *)
Theorem X6_create_duplicate_iff_lookup_finds_row {Store} (db : Executor Store)
    (handle name description numEmployees logoUrl : JsVal)
    (id title salary equity companyHandle : JsVal) (w : World Store) :
  ((∃ e, (Company.create db handle name description numEmployees logoUrl w).1 = Throw e
         ∧ is_DuplicateError e)
   ↔ ∃ row rows, (db (company_check handle) (store w)).1 = inr (row :: rows))
  ∧ ((∃ e, (Job.create db id title salary equity companyHandle w).1 = Throw e
           ∧ is_DuplicateError e)
     ↔ ∃ row rows, (db (job_check id) (store w)).1 = inr (row :: rows))
  ∧ (∀ e, (Company.create db handle name description numEmployees logoUrl w).1 = Throw e →
          is_DuplicateError e →
          e = BadRequestError ("Duplicate company: " +:+ ToString handle))
  ∧ (∀ e, (Job.create db id title salary equity companyHandle w).1 = Throw e →
          is_DuplicateError e →
          e = BadRequestError ("Duplicate job: " +:+ ToString title)).
Proof.
  destruct (Company_duplicate_iff db handle name description numEmployees logoUrl w)
    as [Hc Hcm].
  destruct (Job_duplicate_iff db id title salary equity companyHandle w) as [Hj Hjm].
  by repeat split; try apply Hc; try apply Hj; try apply Hcm; try apply Hjm.
Qed.

(** X7.  For each entity on its own: when the lookup finds no row and
    the store accepts the insert, [create] returns the first row of the
    insert's answer ([undefined] when that answer has no row: this is not
    an error), after exactly the two round trips, in that order. *)
Theorem X7_create_returns_inserted_row {Store} (db : Executor Store)
    (handle name description numEmployees logoUrl : JsVal)
    (id title salary equity companyHandle : JsVal) (w : World Store) :
  (∀ (s1 s2 : Store) (rows : list Row),
     db (company_check handle) (store w) = (inr [], s1) →
     db (company_insert handle name description numEmployees logoUrl) s1 = (inr rows, s2) →
     Company.create db handle name description numEmployees logoUrl w
     = (Return (rows !! 0),
        {| store := s2;
           sent := sent w ++ [company_check handle;
                              company_insert handle name description numEmployees logoUrl] |}))
  ∧ (∀ (s1 s2 : Store) (rows : list Row),
       db (job_check id) (store w) = (inr [], s1) →
       db (job_insert id title salary equity companyHandle) s1 = (inr rows, s2) →
       Job.create db id title salary equity companyHandle w
       = (Return (rows !! 0),
          {| store := s2;
             sent := sent w ++ [job_check id;
                                job_insert id title salary equity companyHandle] |})).
Proof.
  split; intros s1 s2 rows Hc Hi.
  - rewrite Company_create_unfold. cbv zeta. unfold after. rewrite Hc. simpl.
    rewrite Hi. simpl. by rewrite <- app_assoc.
  - rewrite Job_create_unfold. cbv zeta. unfold after. rewrite Hc. simpl.
    rewrite Hi. simpl. by rewrite <- app_assoc.
Qed.

Lemma X7_create_returns_inserted_row_witness :
  let w := {| store := 0; sent := [] |} in
  let u := VUndefined in
  accepting_db (company_check (VStr "c1")) (store w) = (inr [], 1)
  ∧ accepting_db (company_insert (VStr "c1") u u u u) 1
    = (inr [[("key", VStr "c1")]], 2)
  ∧ (Company.create accepting_db (VStr "c1") u u u u w).1
    = Return (Some [("key", VStr "c1")])
  ∧ accepting_db (job_check (VNum 4)) (store w) = (inr [], 1)
  ∧ accepting_db (job_insert (VNum 4) (VStr "New") u u u) 1
    = (inr [[("key", VNum 4)]], 2)
  ∧ (Job.create accepting_db (VNum 4) (VStr "New") u u u w).1
    = Return (Some [("key", VNum 4)]).
Proof.
  intros w u.
  destruct (X7_create_returns_inserted_row accepting_db
              (VStr "c1") u u u u (VNum 4) (VStr "New") u u u w) as [Hcompany Hjob].
  assert (H1 : accepting_db (company_check (VStr "c1")) (store w) = (inr [], 1))
    by (vm_compute; reflexivity).
  assert (H2 : accepting_db (company_insert (VStr "c1") u u u u) 1
               = (inr [[("key", VStr "c1")]], 2)) by (vm_compute; reflexivity).
  assert (H3 : accepting_db (job_check (VNum 4)) (store w) = (inr [], 1))
    by (vm_compute; reflexivity).
  assert (H4 : accepting_db (job_insert (VNum 4) (VStr "New") u u u) 1
               = (inr [[("key", VNum 4)]], 2)) by (vm_compute; reflexivity).
  split; [exact H1|]. split; [exact H2|].
  split; [by rewrite (Hcompany 1 2 _ H1 H2)|].
  split; [exact H3|]. split; [exact H4|].
  by rewrite (Hjob 1 2 _ H3 H4).
Defined.

(** ** [findAll]: outcomes *)

(** X8.  [findAll] returns exactly the rows the store answered, an empty
    answer included: it never throws [NotFoundError].  For the company
    this needs the range check to pass. *)
Theorem X8_findAll_returns_the_answer {Store} (db : Executor Store)
    (cf : Company.Filter) (jf : Job.Filter) (w : World Store) :
  (∀ rows,
     (Company.findAll db cf w).1 = Return rows
     ↔ js_gt (Company.minEmployees cf) (Company.maxEmployees cf) = false
       ∧ (db (Company.assemble (Company.filterClauses cf)) (store w)).1 = inr rows)
  ∧ (∀ rows,
       (Job.findAll db jf w).1 = Return rows
       ↔ (db (Job.assemble (Job.filterClauses jf)) (store w)).1 = inr rows)
  ∧ (∀ message, (Company.findAll db cf w).1 ≠ Throw (NotFoundError message))
  ∧ (∀ message, (Job.findAll db jf w).1 ≠ Throw (NotFoundError message)).
Proof.
  rewrite Company_findAll_unfold, Job_findAll_unfold.
  split; [|split; [|split]].
  - intros rows.
    destruct (js_gt (Company.minEmployees cf) (Company.maxEmployees cf)).
    + split; [discriminate | by intros [? _]].
    + rewrite db_query_fst.
      destruct (db _ (store w)).1 as [e|rows0]; split.
      * discriminate.
      * by intros [_ ?].
      * by intros [= ->].
      * by intros [_ [= ->]].
  - intros rows. rewrite db_query_fst.
    destruct (db _ (store w)).1 as [e|rows0]; split;
      [discriminate | discriminate | by intros [= ->] | by intros [= ->]].
  - intros message.
    destruct (js_gt (Company.minEmployees cf) (Company.maxEmployees cf));
      [discriminate|].
    rewrite db_query_fst. by destruct (db _ (store w)).1.
  - intros message. rewrite db_query_fst. by destruct (db _ (store w)).1.
Qed.

(** X9.  [Company.findAll] throws a [BadRequestError] if and only if both
    bounds are present and the lower exceeds the upper (equal bounds and a
    single bound pass); when it throws it submits nothing, and otherwise it
    submits exactly the assembled statement. *)
Theorem X9_bad_range_iff {Store} (db : Executor Store)
    (filter : Company.Filter) (w : World Store) :
  let bad :=
    ∃ lower upper, Company.minEmployees filter = Some lower
                   ∧ Company.maxEmployees filter = Some upper
                   ∧ (lower > upper)%Z in
  ((∃ message, (Company.findAll db filter w).1 = Throw (BadRequestError message)) ↔ bad)
  ∧ (bad → Company.findAll db filter w = (Throw BadRangeError, w))
  ∧ (¬ bad →
     sent (Company.findAll db filter w).2
     = sent w ++ [Company.assemble (Company.filterClauses filter)]).
Proof.
  intros bad.
  assert (Hgt : js_gt (Company.minEmployees filter) (Company.maxEmployees filter) = true
                ↔ bad).
  { unfold bad, js_gt.
    destruct (Company.minEmployees filter) as [lower|],
      (Company.maxEmployees filter) as [upper|];
      try (split; [discriminate | by intros (? & ? & ? & ? & ?)]).
    rewrite bool_decide_eq_true. split.
    - intros H. by exists lower, upper.
    - by intros (? & ? & [= ->] & [= ->] & ?). }
  rewrite Company_findAll_unfold.
  destruct (js_gt (Company.minEmployees filter) (Company.maxEmployees filter)).
  - split; [|split].
    + split; [intros _; by apply Hgt | intros _; by eexists].
    + reflexivity.
    + intros Hn. destruct Hn. by apply Hgt.
  - split; [|split].
    + split.
      * intros [message Hm].
        destruct (db_query_outcome db (Company.assemble (Company.filterClauses filter)) w)
          as [[rows Hr]|[e He]]; congruence.
      * intros Hb. apply Hgt in Hb. discriminate Hb.
    + intros Hb. apply Hgt in Hb. discriminate Hb.
    + intros _. apply db_query_sent.
Qed.

Lemma X9_bad_range_iff_witness :
  let w := {| store := (); sent := [] |} in
  let single := {| Company.name := VUndefined; Company.minEmployees := Some 50%Z;
                   Company.maxEmployees := None |} in
  let bad := {| Company.name := VUndefined; Company.minEmployees := Some 50%Z;
                Company.maxEmployees := Some 10%Z |} in
  sent (Company.findAll empty_db single w).2
    = [Company.assemble (Company.filterClauses single)]
  ∧ Company.findAll empty_db bad w = (Throw BadRangeError, w).
Proof.
  intros w single bad. split.
  - apply (proj2 (proj2 (X9_bad_range_iff empty_db single w))).
    by intros (lower & upper & _ & H & _).
  - apply (proj1 (proj2 (X9_bad_range_iff empty_db bad w))).
    exists 50%Z, 10%Z. repeat split; lia.
Defined.

(** ** [findAll]: criteria, clauses and values *)

Lemma Company_assemble_where (clauses : list string) (vals : list JsVal) :
  Company.assemble (clauses, vals)
  = {| text := (Company.selectSql +:+ where_clause clauses) +:+ " ORDER BY name";
       params := vals |}.
Proof.
  unfold Company.assemble. destruct clauses as [|first rest].
  - rewrite bool_decide_eq_false_2 by (simpl; lia).
    unfold where_clause. by rewrite append_empty_r.
  - rewrite bool_decide_eq_true_2 by (simpl; lia).
    cbv beta zeta. by rewrite join_and_chain.
Qed.

Lemma Job_assemble_where (clauses : list string) (vals : list JsVal) :
  Job.assemble (clauses, vals)
  = {| text := (Job.selectSql +:+ where_clause clauses) +:+ " ORDER BY title";
       params := vals |}.
Proof.
  unfold Job.assemble. destruct clauses as [|first rest].
  - rewrite bool_decide_eq_false_2 by (simpl; lia).
    unfold where_clause. by rewrite append_empty_r.
  - rewrite bool_decide_eq_true_2 by (simpl; lia).
    cbv beta zeta. by rewrite join_and_chain.
Qed.

Lemma filterClauses_criteria (cf : Company.Filter) (jf : Job.Filter) :
  Company.filterClauses cf = (numbered (company_criteria cf), (company_criteria cf).*2)
  ∧ Job.filterClauses jf
    = (numbered (job_criteria jf)
         ++ (if bool_decide (Job.hasEquity jf = VStr "true") then ["equity > 0"] else []),
       (job_criteria jf).*2).
Proof.
  split.
  - unfold Company.filterClauses, company_criteria.
    by destruct (truthy (Company.name cf)), (Company.minEmployees cf),
      (Company.maxEmployees cf).
  - unfold Job.filterClauses, job_criteria, strict_eq.
    by destruct (truthy (Job.title jf)), (Job.minSalary jf),
      (bool_decide (Job.hasEquity jf = VStr "true")).
Qed.

(** X10.  The statement that [findAll] submits is made of the criteria
    that are present, in the fixed order name/title, lower bound, upper
    bound: after the [SELECT], the i-th such criterion stands as its
    comparison against the placeholder $i, led by [WHERE] or [AND], and its
    value is the i-th bound value (a truthy name/title as the pattern
    [%value%], unescaped).  For the job the equity predicate, when asked
    for, is the last clause and binds nothing.  [Company.findAll] submits
    it when the range check passes and throws otherwise. *)
Theorem X10_clauses_pair_with_values {Store} (db : Executor Store)
    (cf : Company.Filter) (jf : Job.Filter) (w : World Store) :
  Company.findAll db cf w
  = (if js_gt (Company.minEmployees cf) (Company.maxEmployees cf)
     then (Throw BadRangeError, w)
     else db_query db
            {| text := (Company.selectSql
                          +:+ where_clause (numbered (company_criteria cf)))
                       +:+ " ORDER BY name";
               params := (company_criteria cf).*2 |} w)
  ∧ Job.findAll db jf w
    = db_query db
        {| text := (Job.selectSql
                      +:+ where_clause
                            (numbered (job_criteria jf)
                             ++ if bool_decide (Job.hasEquity jf = VStr "true")
                                then ["equity > 0"] else []))
                   +:+ " ORDER BY title";
           params := (job_criteria jf).*2 |} w.
Proof.
  destruct (filterClauses_criteria cf jf) as [Hc Hj].
  rewrite Company_findAll_unfold, Job_findAll_unfold, Hc, Hj.
  by rewrite Company_assemble_where, Job_assemble_where.
Qed.

(** ** [update]: the text and the tables *)

Lemma set_tokens_keys (jsToSql : gmap string string) (d1 d2 : JsObject) :
  d1.*1 = d2.*1 → set_tokens jsToSql d1 = set_tokens jsToSql d2.
Proof.
  intros Hkeys.
  assert (Hview : ∀ d : JsObject,
            set_tokens jsToSql d
            = imap (λ i field, set_token (column_of jsToSql field) (i + 1))
                   (Object_keys d)).
  { intros d. unfold set_tokens, Object_keys. rewrite imap_fmap. by apply imap_ext. }
  by rewrite !Hview, (Object_keys_of_keys _ _ Hkeys).
Qed.

(** X11.  The text that [update] submits depends on the field names of
    the data only: two updates with the same field names, whatever their
    values and identifiers, submit character-identical SQL texts (and none
    when the data is empty). *)
Theorem X11_update_text_depends_on_keys_only {Store} (db : Executor Store)
    (id1 id2 : JsVal) (d1 d2 : JsObject) (w : World Store) :
  d1.*1 = d2.*1 →
  text <$> sent (Company.update db id1 d1 w).2 = text <$> sent (Company.update db id2 d2 w).2
  ∧ text <$> sent (Job.update db id1 d1 w).2 = text <$> sent (Job.update db id2 d2 w).2.
Proof.
  intros Hkeys.
  assert (Hlen : length d1 = length d2).
  { by rewrite <- (length_fmap fst d1), Hkeys, length_fmap. }
  destruct d1 as [|e1 d1'] eqn:E1.
  - destruct d2; [|discriminate Hlen]. by split.
  - assert (Hne1 : e1 :: d1' ≠ []) by discriminate.
    assert (Hne2 : d2 ≠ []) by (destruct d2; [discriminate Hlen | discriminate]).
    rewrite !Company_update_sent, !Job_update_sent by assumption.
    unfold company_update, job_update.
    rewrite !fmap_app. cbn [fmap list_fmap text].
    by rewrite (set_tokens_keys Company.jsToSql _ _ Hkeys),
      (set_tokens_keys Job.jsToSql _ _ Hkeys), Hlen.
Qed.

Lemma X11_update_text_depends_on_keys_only_witness :
  let w := {| store := (); sent := [] |} in
  let d1 := [("name", VStr "New")] in
  let d2 := [("name", VStr "x'; DROP TABLE companies; --")] in
  d1.*1 = d2.*1
  ∧ text <$> sent (Company.update empty_db (VStr "c1") d1 w).2
    = text <$> sent (Company.update empty_db (VStr "c2") d2 w).2.
Proof.
  intros w d1 d2. split; [reflexivity|].
  apply (proj1 (X11_update_text_depends_on_keys_only empty_db
                  (VStr "c1") (VStr "c2") d1 d2 w eq_refl)).
Defined.

(** X12.  The table of [Company.update] renames exactly [numEmployees] and
    [logoUrl]; every other field resolves as without a table: to the string
    of the member inherited from [Object.prototype] under that name when
    there is one ([constructor], [toString], ...), and to its own name
    otherwise.  The table of [Job.update] renames nothing: [Job.update]
    compiles as with an empty table. *)
Theorem X12_update_tables (field : string) (data : JsObject) :
  Member_ToString (js_or (prop Company.jsToSql field) (Scalar (VStr field)))
  = (if bool_decide (field = "numEmployees") then "num_employees"
     else if bool_decide (field = "logoUrl") then "logo_url"
     else default field (Object_prototype field))
  ∧ Member_ToString (js_or (prop Job.jsToSql field) (Scalar (VStr field)))
    = default field (Object_prototype field)
  ∧ (Object_prototype field = None →
     Member_ToString (js_or (prop Job.jsToSql field) (Scalar (VStr field))) = field)
  ∧ sqlForPartialUpdate data Job.jsToSql = sqlForPartialUpdate data ∅.
Proof.
  assert (Hjob : ∀ f, Member_ToString (js_or (prop Job.jsToSql f) (Scalar (VStr f)))
                      = Member_ToString (js_or (prop ∅ f) (Scalar (VStr f)))).
  { intros f. unfold prop, Job.jsToSql.
    rewrite !lookup_insert, lookup_empty.
    repeat case_decide; subst; reflexivity. }
  assert (Hempty : ∀ f, Member_ToString (js_or (prop ∅ f) (Scalar (VStr f)))
                        = default f (Object_prototype f)).
  { intros f. unfold prop. rewrite lookup_empty. by destruct (Object_prototype f). }
  split; [|split; [|split]].
  - unfold prop, Company.jsToSql.
    rewrite !lookup_insert, lookup_empty.
    repeat case_decide; repeat case_bool_decide; subst; try done.
    by destruct (Object_prototype field).
  - by rewrite Hjob, Hempty.
  - intros Hnone. by rewrite Hjob, Hempty, Hnone.
  - unfold sqlForPartialUpdate. case_bool_decide; [reflexivity|].
    do 3 f_equal. apply imap_ext. intros i f _. simpl. by rewrite Hjob.
Qed.

Lemma X12_update_tables_witness :
  Object_prototype "companyHandle" = None
  ∧ Member_ToString (js_or (prop Job.jsToSql "companyHandle")
                           (Scalar (VStr "companyHandle")))
    = "companyHandle".
Proof.
  split; [reflexivity|].
  apply (proj1 (proj2 (proj2 (X12_update_tables "companyHandle" [])))).
  reflexivity.
Defined.

(** * The user routes *)

Section UserRouteProperties.
Import UserRoutes.
Context {S E Body U T : Type}.
Context (validate_userNew validate_userUpdate : Body → Validator).
Context (User_register : Body → S → (E + U) * S).
Context (User_findAll : S → (E + list U) * S).
Context (User_get : string → S → (E + U) * S).
Context (User_update : string → Body → S → (E + U) * S).
Context (User_remove : string → S → (E + unit) * S).
Context (User_applied : string → string → S → (E + unit) * S).
Context (createToken : U → T).

(** X13.  Every handler except POST / calls the user model before it looks
    at the caller: whoever the caller is (even none), the state of the
    model after the handler is the state after the operation: after
    DELETE the removal has been done, after PATCH the update (when the body
    is valid), after POST /:username/jobs/:id the application. *)
Theorem X13_operation_runs_before_authorization
    (caller : option LocalsUser) (param id : string) (body : Body) (s : S) :
  (delete_username (U:=U) (T:=T) User_remove caller param s).2 = (User_remove param s).2
  ∧ (post_username_jobs_id (U:=U) (T:=T) User_applied caller param id s).2
    = (User_applied param id s).2
  ∧ (patch_username (T:=T) validate_userUpdate User_update caller param body s).2
    = (if valid (validate_userUpdate body) then (User_update param body s).2 else s)
  ∧ (get_username (T:=T) User_get caller param s).2 = (User_get param s).2
  ∧ (get_root (T:=T) User_findAll caller s).2 = (User_findAll s).2.
Proof.
  unfold_handler. repeat split.
  - destruct (User_remove param s) as [[e|[]] s']; [done|].
    destruct caller as [u|]; [|done]. by destruct (_ && _).
  - destruct (User_applied param id s) as [[e|[]] s']; [done|].
    destruct caller as [u|]; [|done]. by destruct (_ && _).
  - destruct (valid (validate_userUpdate body)); [|done]. simpl.
    destruct (User_update param body s) as [[e|u'] s']; [done|].
    destruct caller as [u|]; [|done]. by destruct (_ && _).
  - destruct (User_get param s) as [[e|u'] s']; [done|].
    destruct caller as [u|]; [|done]. by destruct (_ && _).
  - destruct (User_findAll s) as [[e|us] s']; [done|].
    destruct caller as [u|]; [|done]. by destruct (strict_eq _ _).
Qed.

(** X14.  DELETE /:username and POST /:username/jobs/:id answer with
    [UnauthorizedError] exactly when the operation of the user model has
    succeeded and the caller is marked [isAdmin: false] under another
    username: the refusal comes after the removal (or application) has
    taken place. *)
Theorem X14_refusal_follows_the_operation
    (caller : option LocalsUser) (param id : string) (s : S) :
  let refused (reply : Reply E U T) := ∃ message, reply = Next (Unauthorized message) in
  let stranger :=
    ∃ user, caller = Some user ∧ isAdmin user = VBool false
            ∧ username user ≠ VStr param in
  (refused (delete_username User_remove caller param s).1
   ↔ (User_remove param s).1 = inr () ∧ stranger)
  ∧ (refused (post_username_jobs_id User_applied caller param id s).1
     ↔ (User_applied param id s).1 = inr () ∧ stranger).
Proof.
  intros refused stranger.
  assert (Htest : ∀ user : LocalsUser,
            strict_eq (isAdmin user) (VBool false)
            && negb (strict_eq (username user) (VStr param)) = true
            ↔ isAdmin user = VBool false ∧ username user ≠ VStr param).
  { intros user. unfold strict_eq.
    rewrite andb_true_iff, negb_true_iff, bool_decide_eq_true, bool_decide_eq_false.
    reflexivity. }
  subst refused stranger. unfold_handler. split.
  - destruct (User_remove param s) as [[e|[]] s']; simpl.
    { split; [by intros [? ?] | by intros [? _]]. }
    destruct caller as [user|]; simpl.
    2:{ split; [by intros [? ?] | by intros [_ (? & ? & _)]]. }
    destruct (_ && _) eqn:Ht; simpl.
    + apply Htest in Ht. split; [|by eexists].
      intros _. split; [done|]. by exists user.
    + split; [by intros [? ?]|].
      intros [_ (user' & [= <-] & Ha & Hu)].
      assert (Ht' := proj2 (Htest user) (conj Ha Hu)). congruence.
  - destruct (User_applied param id s) as [[e|[]] s']; simpl.
    { split; [by intros [? ?] | by intros [? _]]. }
    destruct caller as [user|]; simpl.
    2:{ split; [by intros [? ?] | by intros [_ (? & ? & _)]]. }
    destruct (_ && _) eqn:Ht; simpl.
    + apply Htest in Ht. split; [|by eexists].
      intros _. split; [done|]. by exists user.
    + split; [by intros [? ?]|].
      intros [_ (user' & [= <-] & Ha & Hu)].
      assert (Ht' := proj2 (Htest user) (conj Ha Hu)). congruence.
Qed.

(** X15.  POST / validates first, then tests the caller, then registers:
    an invalid body is answered with the validator's messages whoever the
    caller is; [User.register] runs only for a valid body and a caller whose
    [isAdmin] is not [false], and then the answer is 201 with the user and
    the token made from it (or the model's error). *)
Theorem X15_post_root_order
    (caller : option LocalsUser) (body : Body) (s : S) :
  let validator := validate_userNew body in
  let reply := post_root validate_userNew User_register createToken caller body s in
  (valid validator = false →
   reply = (Next (BadRequest (stack <$> errors validator)), s))
  ∧ (valid validator = true → caller = None → reply = (Next TypeError, s))
  ∧ (∀ user, valid validator = true → caller = Some user →
       isAdmin user = VBool false →
       reply = (Next (Unauthorized "Only admin can reach this route"), s))
  ∧ (∀ user, valid validator = true → caller = Some user →
       isAdmin user ≠ VBool false →
       reply = (match (User_register body s).1 with
                | inr registered => Json 201 (UserToken registered (createToken registered))
                | inl e => Next (ModelError e)
                end, (User_register body s).2)).
Proof.
  intros validator reply. subst validator reply. unfold_handler.
  split; [|split; [|split]].
  - by intros ->.
  - by intros -> ->.
  - intros user -> -> Ha. simpl. unfold strict_eq.
    by rewrite bool_decide_eq_true_2.
  - intros user -> -> Ha. simpl. unfold strict_eq.
    rewrite bool_decide_eq_false_2 by done.
    by destruct (User_register body s) as [[e|registered] s'].
Qed.

(** X16.  Only the boolean [false] marks a caller as non-admin: a caller
    whose [isAdmin] is anything else (missing, [null], [0], the string
    ["false"]) is never answered with [UnauthorizedError], by any handler
    and for any username. *)
Theorem X16_only_false_is_refused
    (user : LocalsUser) (param id : string) (body : Body) (s : S) (message : string) :
  isAdmin user ≠ VBool false →
  (post_root validate_userNew User_register createToken (Some user) body s).1
    ≠ Next (Unauthorized message)
  ∧ (get_root (T:=T) User_findAll (Some user) s).1 ≠ Next (Unauthorized message)
  ∧ (get_username (T:=T) User_get (Some user) param s).1 ≠ Next (Unauthorized message)
  ∧ (patch_username (T:=T) validate_userUpdate User_update (Some user) param body s).1
    ≠ Next (Unauthorized message)
  ∧ (delete_username (U:=U) (T:=T) User_remove (Some user) param s).1
    ≠ Next (Unauthorized message)
  ∧ (post_username_jobs_id (U:=U) (T:=T) User_applied (Some user) param id s).1
    ≠ Next (Unauthorized message).
Proof.
  intros Ha.
  assert (Hf : strict_eq (isAdmin user) (VBool false) = false)
    by (unfold strict_eq; by rewrite bool_decide_eq_false_2).
  unfold_handler. rewrite Hf. simpl. repeat split.
  - destruct (valid (validate_userNew body)); simpl; [|done].
    by destruct (User_register body s) as [[e|registered] s'].
  - by destruct (User_findAll s) as [[e|us] s'].
  - by destruct (User_get param s) as [[e|u'] s'].
  - destruct (valid (validate_userUpdate body)); simpl; [|done].
    by destruct (User_update param body s) as [[e|u'] s'].
  - by destruct (User_remove param s) as [[e|[]] s'].
  - by destruct (User_applied param id s) as [[e|[]] s'].
Qed.

End UserRouteProperties.

(** A caller without [isAdmin] deleting another user, over a model that
    accepts every removal. *)
Lemma X16_only_false_is_refused_witness :
  let user := {| UserRoutes.isAdmin := VUndefined; UserRoutes.username := VStr "u1" |} in
  let remove : string → unit → (unit + unit) * unit := λ _ s, (inr (), s) in
  UserRoutes.isAdmin user ≠ VBool false
  ∧ (UserRoutes.delete_username (U:=unit) (T:=unit) remove (Some user) "u2" ()).1
    ≠ UserRoutes.Next (UserRoutes.Unauthorized "Only admin or this user can reach this route").
Proof.
  intros user remove.
  assert (H : UserRoutes.isAdmin user ≠ VBool false) by discriminate.
  split; [exact H|].
  exact (proj1 (proj2 (proj2 (proj2 (proj2
    (X16_only_false_is_refused (Body:=unit) (λ _, {| UserRoutes.valid := true; UserRoutes.errors := [] |})
       (λ _, {| UserRoutes.valid := true; UserRoutes.errors := [] |})
       (λ _ s, (inr (), s)) (λ s, (inr [], s)) (λ _ s, (inr (), s))
       (λ _ _ s, (inr (), s)) remove (λ _ _ s, (inr (), s)) (λ _, ())
       user "u2" "1" () () _ H)))))).
Defined.
